(** * givenergy_modbus.model: register rendering and the register cache

    A shallow embedding of [givenergy_modbus/model/register.py] and
    [givenergy_modbus/model/register_cache.py], with the properties of the
    register model stated and proved over it.

    Layout:
    - [Py]: the fragment of the Python runtime the two modules rely on
      (exceptions, [None], [int], [float], [str] methods, [datetime]);
    - [Type_], [Scaling], [render] and the two register tables
      ([register.py]);
    - [RegisterCache] and its helpers as computations over a mutable
      dictionary ([register_cache.py]);
    - the theorems. *)

From Stdlib Require Import ZArith Floats Uint63 Ascii String.
From stdpp Require Import gmap strings list.

#[local] Open Scope string_scope.
#[local] Open Scope list_scope.
#[local] Open Scope Z_scope.

(* ===================================================================== *)
(** * The Python runtime fragment *)
(* ===================================================================== *)

Module Py.

(** Exception classes the modelled code can raise.  [KeyError] carries the
    [repr] of the key that was not found. *)
Inductive exn : Type :=
| TypeError
| AttributeError
| ValueError
| KeyError (key : string)
| OverflowError
| UnicodeDecodeError.

(** The outcome of evaluating an expression: a value or a raised exception. *)
Inductive result (A : Type) : Type :=
| Ok (a : A)
| Raise (e : exn).
Arguments Ok {A} a.
Arguments Raise {A} e.

Definition rbind {A B} (r : result A) (k : A → result B) : result B :=
  match r with
  | Ok a => k a
  | Raise e => Raise e
  end.

Definition is_ok {A} (r : result A) : bool :=
  match r with Ok _ => true | Raise _ => false end.

(** Values stored in a register cache: an [int], or [None] (what the
    default factory [lambda: None] produces). *)
Inductive pyval : Type :=
| PNone
| PInt (z : Z).

(** Numbers: [int] and [float] (IEEE binary64, as in CPython). *)
Inductive pynum : Type :=
| NInt (z : Z)
| NFloat (f : float).

(** ** [int] to [float] conversion and [int * number] *)

(** [float(z)]: the nearest binary64 (ties to even); [OverflowError] when
    the integer is too large. *)
Definition float_of_int (z : Z) : result float :=
  if Z.abs z <? 2 ^ 63 then
    let m := PrimFloat.of_uint63 (Uint63.of_Z (Z.abs z)) in
    Ok (if z <? 0 then PrimFloat.opp m else m)
  else
    match binary_normalize prec emax z 0 false with
    | S754_infinity _ => Raise OverflowError
    | sf => Ok (SF2Prim sf)
    end.

(** [z * k] for an [int] [z]: an [int] when [k] is an [int], otherwise the
    product of [float(z)] and [k]. *)
Definition int_mul (z : Z) (k : pynum) : result pynum :=
  match k with
  | NInt k => Ok (NInt (z * k))
  | NFloat f => rbind (float_of_int z) (λ x, Ok (NFloat (PrimFloat.mul x f)))
  end.

(** ** Characters *)

Definition ord (c : ascii) : Z := Z.of_N (N_of_ascii c).
Definition chr (n : Z) : ascii := ascii_of_N (Z.to_N n).

Definition is_digit (c : ascii) : bool := (48 <=? ord c) && (ord c <=? 57).
Definition is_lower (c : ascii) : bool := (97 <=? ord c) && (ord c <=? 122).
Definition is_upper (c : ascii) : bool := (65 <=? ord c) && (ord c <=? 90).

(** Whitespace skipped by [int()] around the digits, among the code points
    below 256: tab to carriage return, space, and the two spaces above 127
    (next line, no-break space), which [int()] turns into spaces.  The
    separators 28 to 31 are not skipped. *)
Definition is_space (c : ascii) : bool :=
  ((9 <=? ord c) && (ord c <=? 13)) || (ord c =? 32)
  || (ord c =? 133) || (ord c =? 160).

(** [str.isalnum] and [str.upper] on ASCII characters. *)
Definition isalnum (c : ascii) : bool := is_digit c || is_lower c || is_upper c.
Definition upper_char (c : ascii) : ascii :=
  if is_lower c then chr (ord c - 32) else c.

(** ** [str] methods used by the cache *)

Fixpoint str_filter (p : ascii → bool) (s : string) : string :=
  match s with
  | EmptyString => EmptyString
  | String c s' => if p c then String c (str_filter p s') else str_filter p s'
  end.

Fixpoint str_map (f : ascii → ascii) (s : string) : string :=
  match s with
  | EmptyString => EmptyString
  | String c s' => String (f c) (str_map f s')
  end.

Fixpoint str_forallb (p : ascii → bool) (s : string) : bool :=
  match s with
  | EmptyString => true
  | String c s' => p c && str_forallb p s'
  end.

Definition upper (s : string) : string := str_map upper_char s.

(** [s.find(c)] for a one-character needle: the index of the first
    occurrence, or [-1]. *)
Fixpoint find (c : ascii) (s : string) : Z :=
  match s with
  | EmptyString => -1
  | String a s' =>
      if Ascii.eqb a c then 0
      else let i := find c s' in if i <? 0 then -1 else i + 1
  end.

(** [s.split(c, maxsplit=1)] for a one-character separator. *)
Fixpoint split1 (c : ascii) (s : string) : list string :=
  match s with
  | EmptyString => [EmptyString]
  | String a s' =>
      if Ascii.eqb a c then [EmptyString; s']
      else match split1 c s' with
           | h :: t => String a h :: t
           | [] => []
           end
  end.

(** [s[:-1]]. *)
Fixpoint drop_last (s : string) : string :=
  match s with
  | EmptyString => EmptyString
  | String a EmptyString => EmptyString
  | String a s' => String a (drop_last s')
  end.

Fixpoint lstrip (s : string) : string :=
  match s with
  | EmptyString => EmptyString
  | String a s' => if is_space a then lstrip s' else s
  end.

Fixpoint rstrip (s : string) : string :=
  match s with
  | EmptyString => EmptyString
  | String a s' =>
      match rstrip s' with
      | EmptyString => if is_space a then EmptyString else String a EmptyString
      | r => String a r
      end
  end.

Definition strip (s : string) : string := rstrip (lstrip s).

(** ** Printing and parsing integers *)

(** Digits of [n] in base [base], most significant first, in front of [acc]. *)
Fixpoint digits (base : Z) (digit : Z → ascii) (fuel : nat) (n : Z)
    (acc : string) : string :=
  match fuel with
  | O => acc
  | S fuel' =>
      let acc' := String (digit (n mod base)) acc in
      if n / base =? 0 then acc' else digits base digit fuel' (n / base) acc'
  end.

Definition digit_fuel (n : Z) : nat := S (Z.to_nat (Z.log2 n)).

Definition dec_digit (d : Z) : ascii := chr (48 + d).
Definition hex_digit (d : Z) : ascii :=
  if d <? 10 then chr (48 + d) else chr (87 + d).

(** [str(z)] for an [int]. *)
Definition str_of_int (z : Z) : string :=
  if z <? 0 then String "-" (digits 10 dec_digit (digit_fuel (- z)) (- z) "")
  else digits 10 dec_digit (digit_fuel z) z "".

Fixpoint zero_pad (n : nat) (s : string) : string :=
  match n with
  | O => s
  | S n' => String "0" (zero_pad n' s)
  end.

(** [f"{z:04x}"]: lower-case hexadecimal, zero-padded after the sign to a
    total width of four. *)
Definition format_04x (z : Z) : string :=
  let body := digits 16 hex_digit (digit_fuel (Z.abs z)) (Z.abs z) "" in
  if z <? 0 then String "-" (zero_pad (3 - String.length body)%nat body)
  else zero_pad (4 - String.length body)%nat body.

(** The digit part of an integer literal accepted by [int()]: decimal digits,
    with single underscores allowed between two digits.  [prev] records
    whether the previous character was a digit. *)
Fixpoint parse_digits (s : string) (acc : Z) (prev : bool) : option Z :=
  match s with
  | EmptyString => if prev then Some acc else None
  | String c s' =>
      if is_digit c then parse_digits s' (acc * 10 + (ord c - 48)) true
      else if Ascii.eqb c "_" && prev then parse_digits s' acc false
      else None
  end.

(** [int(s)] for a [str] (base 10): surrounding whitespace is ignored, one
    optional sign, then the digits; anything else is a [ValueError]. *)
Definition int_of_str (s : string) : result Z :=
  let parsed :=
    match strip s with
    | String c d =>
        if Ascii.eqb c "-" then Z.opp <$> parse_digits d 0 false
        else if Ascii.eqb c "+" then parse_digits d 0 false
        else parse_digits (String c d) 0 false
    | EmptyString => None
    end in
  match parsed with
  | Some z => Ok z
  | None => Raise ValueError
  end.

(** ** [int.to_bytes(2, byteorder="big")] *)

Definition to_bytes2 (z : Z) : result (Z * Z) :=
  if (0 <=? z) && (z <? 65536) then Ok (Z.shiftr z 8, Z.land z 255)
  else Raise OverflowError.

(** [bytes.decode(encoding="ascii")] on two bytes: strict, so any byte
    outside [0..127] raises. *)
Definition decode_ascii2 (b : Z * Z) : result string :=
  let '(hi, lo) := b in
  if (hi <? 128) && (lo <? 128) then Ok (String (chr hi) (String (chr lo) ""))
  else Raise UnicodeDecodeError.

(** ** Text with code points beyond one byte

    [bytes.decode(encoding="latin1")] maps each byte to the code point of
    the same number, and [str.upper] can leave the one-byte range, so the
    result of [to_string] is kept as a list of code points. *)

Definition ustr : Type := list Z.

Definition decode_latin1_2 (b : Z * Z) : ustr := [b.1; b.2].

Definition between (lo hi n : Z) : bool := (lo <=? n) && (n <=? hi).

(** [str.isalnum] on code points up to U+00FF: letters, decimal digits and
    the other numeric characters of the Latin-1 supplement. *)
Definition u_isalnum (n : Z) : bool :=
  between 48 57 n || between 65 90 n || between 97 122 n
  || (n =? 170) || (n =? 178) || (n =? 179) || (n =? 181)
  || (n =? 185) || (n =? 186) || between 188 190 n
  || between 192 214 n || between 216 246 n || between 248 255 n.

(** [str.upper] on one code point up to U+00FF. *)
Definition u_upper (n : Z) : ustr :=
  if between 97 122 n then [n - 32]
  else if n =? 181 then [924]
  else if n =? 223 then [83; 83]
  else if between 224 246 n || between 248 254 n then [n - 32]
  else if n =? 255 then [376]
  else [n].

Definition ustr_of_string (s : string) : ustr :=
  ord <$> list_ascii_of_string s.

(** ** [datetime.datetime] *)

Record datetime : Type := mk_datetime {
  year : Z; month : Z; day : Z; hour : Z; minute : Z; second : Z
}.

Definition is_leap (y : Z) : bool :=
  (y mod 4 =? 0) && (negb (y mod 100 =? 0) || (y mod 400 =? 0)).

Definition days_in_month (y m : Z) : Z :=
  if m =? 2 then (if is_leap y then 29 else 28)
  else if (m =? 4) || (m =? 6) || (m =? 9) || (m =? 11) then 30
  else 31.

(** An argument of the constructor must be an [int] that fits a C [int]. *)
Definition as_c_int (v : pyval) : result Z :=
  match v with
  | PNone => Raise TypeError
  | PInt z =>
      if (- 2 ^ 31 <=? z) && (z <? 2 ^ 31) then Ok z else Raise OverflowError
  end.

(** [datetime.datetime(y, m, d, h, mi, s)]: the arguments are converted
    first, then the date and the time fields are range-checked. *)
Definition datetime_new (y m d h mi s : pyval) : result datetime :=
  rbind (as_c_int y) (λ y,
  rbind (as_c_int m) (λ m,
  rbind (as_c_int d) (λ d,
  rbind (as_c_int h) (λ h,
  rbind (as_c_int mi) (λ mi,
  rbind (as_c_int s) (λ s,
    if between 1 9999 y && between 1 12 m && between 1 (days_in_month y m) d
       && between 0 23 h && between 0 59 mi && between 0 59 s
    then Ok (mk_datetime y m d h mi s)
    else Raise ValueError)))))).

End Py.
Export Py.


#[export] Instance result_ret : MRet result := @Ok.
#[export] Instance result_bind : MBind result := λ A B k r, rbind r k.
#[export] Instance result_fmap : FMap result :=
  λ A B f r, rbind r (λ a, Ok (f a)).

(* ===================================================================== *)
(** * register.py *)
(* ===================================================================== *)

(** [class Type(Enum)]: the type of data a register represents. *)
Inductive Type_ : Type :=
| BOOL
| WORD        (* unsigned single word *)
| DWORD_HIGH  (* unsigned double word, higher (MSB) address half *)
| DWORD_LOW   (* unsigned double word, lower (LSB) address half *)
| SWORD       (* signed single word *)
| ASCII.

#[export] Instance Type_eq_dec : EqDecision Type_.
Proof. solve_decision. Defined.

(** What [Type.render] can return: a [bool], a number or a [str]. *)
Inductive rendered : Type :=
| RBool (b : bool)
| RNum (n : pynum)
| RStr (s : string).

(** [Type.render(self, value, scaling)]. *)
Definition render (self : Type_) (value : Z) (scaling : pynum)
    : result rendered :=
  if bool_decide (self = DWORD_HIGH) then
    (* shift MSB half of the word left by 4 bytes *)
    RNum <$> int_mul (Z.shiftl value 16) scaling
  else if bool_decide (self = SWORD) then
    (* Subtract 2^n if bit n-1 is set *)
    let value :=
      if negb (Z.land value (Z.shiftl 1 (16 - 1)) =? 0)
      then value - Z.shiftl 1 16 else value in
    RNum <$> int_mul value scaling
  else if bool_decide (self = ASCII) then
    RStr <$> (to_bytes2 value ≫= decode_ascii2)
  else if bool_decide (self = BOOL) then
    Ok (RBool (negb (Z.land value 1 =? 0)))
  else
    (* only unsigned WORD left *)
    RNum <$> int_mul value scaling.

(** [class Scaling(Enum)]: the factor applied to a register's value. *)
Inductive Scaling : Type :=
| UNIT
| DECI
| CENTI.

#[export] Instance Scaling_eq_dec : EqDecision Scaling.
Proof. solve_decision. Defined.

(** The [value] of a [Scaling] member: [1], [0.1], [0.01]. *)
Definition Scaling_value (s : Scaling) : pynum :=
  match s with
  | UNIT => NInt 1
  | DECI => NFloat 0x1.999999999999ap-4
  | CENTI => NFloat 0x1.47ae147ae147bp-7
  end.

(** A member of a [RegisterBank] enumeration: its name, its index [value],
    its [type] and its [scaling]. *)
Record RegisterBank : Type := member {
  name : string;
  value : Z;
  type : Type_;
  scaling : Scaling
}.

(** [RegisterBank.render(self, val)]. *)
Definition RegisterBank_render (self : RegisterBank) (val : Z)
    : result rendered :=
  render (type self) val (Scaling_value (scaling self)).

(** [class HoldingRegister(RegisterBank)] and
    [class InputRegister(RegisterBank)], in definition order. *)
Definition HoldingRegister : list RegisterBank := [
  member "DEVICE_TYPE_CODE" 0 WORD UNIT;
  member "INVERTER_MODULE_H" 1 DWORD_HIGH UNIT;
  member "INVERTER_MODULE_L" 2 DWORD_LOW UNIT;
  member "INPUT_TRACKER_NUM_AND_OUTPUT_PHASE_NUM" 3 WORD UNIT;
  member "REG004" 4 WORD UNIT;
  member "REG005" 5 WORD UNIT;
  member "REG006" 6 WORD UNIT;
  member "REG007" 7 WORD UNIT;
  member "BATTERY_SERIAL_NUMBER_5" 8 ASCII UNIT;
  member "BATTERY_SERIAL_NUMBER_4" 9 ASCII UNIT;
  member "BATTERY_SERIAL_NUMBER_3" 10 ASCII UNIT;
  member "BATTERY_SERIAL_NUMBER_2" 11 ASCII UNIT;
  member "BATTERY_SERIAL_NUMBER_1" 12 ASCII UNIT;
  member "INVERTER_SERIAL_NUMBER_5" 13 ASCII UNIT;
  member "INVERTER_SERIAL_NUMBER_4" 14 ASCII UNIT;
  member "INVERTER_SERIAL_NUMBER_3" 15 ASCII UNIT;
  member "INVERTER_SERIAL_NUMBER_2" 16 ASCII UNIT;
  member "INVERTER_SERIAL_NUMBER_1" 17 ASCII UNIT;
  member "BATTERY_FIRMWARE_VERSION" 18 WORD UNIT;
  member "DSP_FIRMWARE_VERSION" 19 WORD UNIT;
  member "WINTER_MODE" 20 BOOL UNIT;
  member "ARM_FIRMWARE_VERSION" 21 WORD UNIT;
  member "WIFI_OR_U_DISK" 22 WORD UNIT;
  member "SELECT_DSP_OR_ARM" 23 WORD UNIT;
  member "SET_VARIABLE_ADDRESS" 24 WORD UNIT;
  member "SET_VARIABLE_VALUE" 25 WORD UNIT;
  member "GRID_PORT_MAX_OUTPUT_POWER" 26 WORD UNIT;
  member "BATTERY_POWER_MODE" 27 BOOL UNIT;
  member "FRE_MODE" 28 WORD UNIT;
  member "SOC_FORCE_ADJUST" 29 WORD UNIT;
  member "COMMUNICATE_ADDRESS" 30 WORD UNIT;
  member "CHARGE_SLOT_2_START" 31 WORD UNIT;
  member "CHARGE_SLOT_2_END" 32 WORD UNIT;
  member "USER_CODE" 33 WORD UNIT;
  member "MODBUS_VERSION" 34 WORD CENTI;
  member "SYSTEM_TIME_YEAR" 35 WORD UNIT;
  member "SYSTEM_TIME_MONTH" 36 WORD UNIT;
  member "SYSTEM_TIME_DAY" 37 WORD UNIT;
  member "SYSTEM_TIME_HOUR" 38 WORD UNIT;
  member "SYSTEM_TIME_MINUTE" 39 WORD UNIT;
  member "SYSTEM_TIME_SECOND" 40 WORD UNIT;
  member "DRM_ENABLE" 41 BOOL UNIT;
  member "CT_ADJUST" 42 WORD UNIT;
  member "CHARGE_AND_DISCHARGE_SOC" 43 WORD UNIT;
  member "DISCHARGE_SLOT_2_START" 44 WORD UNIT;
  member "DISCHARGE_SLOT_2_END" 45 WORD UNIT;
  member "BMS_VERSION" 46 WORD UNIT;
  member "B_METER_TYPE" 47 WORD UNIT;
  member "B_115_METER_DIRECT" 48 WORD UNIT;
  member "B_418_METER_DIRECT" 49 WORD UNIT;
  member "ACTIVE_P_RATE" 50 WORD UNIT;
  member "REACTIVE_P_RATE" 51 WORD UNIT;
  member "POWER_FACTOR" 52 WORD UNIT;
  member "INVERTER_STATE" 53 WORD UNIT;
  member "BATTERY_TYPE" 54 WORD UNIT;
  member "BATTERY_NOMINAL_CAPACITY" 55 WORD UNIT;
  member "DISCHARGE_SLOT_1_START" 56 WORD UNIT;
  member "DISCHARGE_SLOT_1_END" 57 WORD UNIT;
  member "AUTO_JUDGE_BATTERY_TYPE_ENABLE" 58 WORD UNIT;
  member "DISCHARGE_ENABLE" 59 BOOL UNIT;
  member "INPUT_START_VOLTAGE" 60 WORD UNIT;
  member "START_TIME" 61 WORD UNIT;
  member "RESTART_DELAY_TIME" 62 WORD UNIT;
  member "V_AC_LOW_OUT" 63 WORD DECI;
  member "V_AC_HIGH_OUT" 64 WORD DECI;
  member "F_AC_LOW_OUT" 65 WORD CENTI;
  member "F_AC_HIGH_OUT" 66 WORD CENTI;
  member "V_AC_LOW_OUT_TIME" 67 WORD UNIT;
  member "V_AC_HIGH_OUT_TIME" 68 WORD UNIT;
  member "F_AC_LOW_OUT_TIME" 69 WORD UNIT;
  member "F_AC_HIGH_OUT_TIME" 70 WORD UNIT;
  member "V_AC_LOW_IN" 71 WORD DECI;
  member "V_AC_HIGH_IN" 72 WORD DECI;
  member "F_AC_LOW_IN" 73 WORD CENTI;
  member "F_AC_HIGH_IN" 74 WORD CENTI;
  member "V_AC_LOW_IN_TIME" 75 WORD UNIT;
  member "V_AC_HIGH_IN_TIME" 76 WORD UNIT;
  member "F_AC_LOW_TIME_IN" 77 WORD UNIT;
  member "F_AC_HIGH_TIME_IN" 78 WORD UNIT;
  member "V_AC_LOW_C" 79 WORD DECI;
  member "V_AC_HIGH_C" 80 WORD DECI;
  member "F_AC_LOW_C" 81 WORD CENTI;
  member "F_AC_HIGH_C" 82 WORD CENTI;
  member "U_10_MIN" 83 WORD UNIT;
  member "ISO1" 84 WORD UNIT;
  member "ISO2" 85 WORD UNIT;
  member "GFCI_I_1" 86 WORD UNIT;
  member "GFCI_TIME_1" 87 WORD UNIT;
  member "GFCI_I_2" 88 WORD UNIT;
  member "GFCI_TIME_2" 89 WORD UNIT;
  member "DCI_I_1" 90 WORD UNIT;
  member "DCI_TIME_1" 91 WORD UNIT;
  member "DCI_I_2" 92 WORD UNIT;
  member "DCI_TIME_2" 93 WORD UNIT;
  member "CHARGE_SLOT_1_START" 94 WORD UNIT;
  member "CHARGE_SLOT_1_END" 95 WORD UNIT;
  member "BATTERY_SMART_CHARGE" 96 BOOL UNIT;
  member "DISCHARGE_LOW_LIMIT" 97 WORD UNIT;
  member "CHARGER_HIGH_LIMIT" 98 WORD UNIT;
  member "PV1_VOLT_ADJUST" 99 WORD UNIT;
  member "PV2_VOLT_ADJUST" 100 WORD UNIT;
  member "GRID_R_VOLT_ADJUST" 101 WORD UNIT;
  member "GRID_S_VOLT_ADJUST" 102 WORD UNIT;
  member "GRID_T_VOLT_ADJUST" 103 WORD UNIT;
  member "GRID_POWER_ADJUST" 104 WORD UNIT;
  member "BATTERY_VOLT_ADJUST" 105 WORD UNIT;
  member "PV1_POWER_ADJUST" 106 WORD UNIT;
  member "PV2_POWER_ADJUST" 107 WORD UNIT;
  member "BATTERY_LOW_FORCE_CHARGE_TIME" 108 WORD UNIT;
  member "BMS_TYPE" 109 WORD UNIT;
  member "SHALLOW_CHARGE" 110 WORD UNIT;
  member "BATTERY_CHARGE_LIMIT" 111 WORD UNIT;
  member "BATTERY_DISCHARGE_LIMIT" 112 WORD UNIT;
  member "BUZZER_SW" 113 WORD UNIT;
  member "BATTERY_POWER_RESERVE" 114 WORD UNIT;
  member "ISLAND_CHECK_CONTINUE" 115 WORD UNIT;
  member "TARGET_SOC" 116 WORD UNIT;
  member "CHG_SOC_STOP2" 117 WORD UNIT;
  member "DISCHARGE_SOC_STOP2" 118 WORD UNIT;
  member "CHG_SOC_STOP" 119 WORD UNIT;
  member "DISCHARGE_SOC_STOP" 120 WORD UNIT
].

Definition InputRegister : list RegisterBank := [
  member "INVERTER_STATUS" 0 WORD UNIT;
  member "V_PV1" 1 WORD DECI;
  member "V_PV2" 2 WORD DECI;
  member "P_BUS_INSIDE_VOLTAGE" 3 WORD DECI;
  member "N_BUS_INSIDE_VOLTAGE" 4 WORD DECI;
  member "V_SINGLE_PHASE_GRID" 5 WORD DECI;
  member "E_BATTERY_THROUGHPUT_H" 6 DWORD_HIGH DECI;
  member "E_BATTERY_THROUGHPUT_L" 7 DWORD_LOW DECI;
  member "I_PV1_INPUT" 8 WORD CENTI;
  member "I_PV2_INPUT" 9 WORD CENTI;
  member "I_GRID_OUTPUT_SINGLE_PHASE" 10 WORD CENTI;
  member "PV_TOTAL_GENERATING_CAPACITY_H" 11 DWORD_HIGH DECI;
  member "PV_TOTAL_GENERATING_CAPACITY_L" 12 DWORD_LOW DECI;
  member "F_GRID_THREE_SINGLE_PHASE" 13 WORD CENTI;
  member "CHARGE_STATUS" 14 WORD UNIT;
  member "V_HIGHBRIGH_BUS" 15 WORD UNIT;
  member "PF_INVERTER_OUTPUT_NOW" 16 WORD UNIT;
  member "E_PV1_DAY" 17 WORD DECI;
  member "P_PV1_INPUT" 18 WORD UNIT;
  member "E_PV2_DAY" 19 WORD DECI;
  member "P_PV2_INPUT" 20 WORD UNIT;
  member "E_GRID_OUT_TOTAL_H" 21 DWORD_HIGH DECI;
  member "E_GRID_OUT_TOTAL_L" 22 DWORD_LOW DECI;
  member "PV_MATE" 23 WORD DECI;
  member "P_GRID_THREE_SINGLE_PHASE_OUTPUT_L" 24 SWORD UNIT;
  member "E_GRID_OUT_DAY" 25 WORD DECI;
  member "E_GRID_IN_DAY" 26 WORD DECI;
  member "E_INVERTER_IN_TOTAL_H" 27 DWORD_HIGH DECI;
  member "E_INVERTER_IN_TOTAL_L" 28 DWORD_LOW DECI;
  member "E_DISCHARGE_YEAR_L" 29 WORD DECI;
  member "P_GRID_OUTPUT" 30 SWORD UNIT;
  member "P_BACKUP" 31 WORD UNIT;
  member "P_GRID_IN_TOTAL_H" 32 DWORD_HIGH DECI;
  member "P_GRID_IN_TOTAL_L" 33 DWORD_LOW DECI;
  member "REG034" 34 WORD UNIT;
  member "E_TOTAL_LOAD_DAY" 35 WORD DECI;
  member "E_BATTERY_CHARGE_DAY" 36 WORD DECI;
  member "E_BATTERY_DISCHARGE_DAY" 37 WORD DECI;
  member "P_COUNTDOWN" 38 WORD UNIT;
  member "FAULT_CODE_H" 39 DWORD_HIGH UNIT;
  member "FAULT_CODE_L" 40 DWORD_LOW UNIT;
  member "TEMP_INV" 41 WORD DECI;
  member "P_LOAD_TOTAL" 42 WORD UNIT;
  member "P_GRID_APPARENT" 43 WORD UNIT;
  member "E_GENERATED_DAY" 44 WORD DECI;
  member "E_GENERATED_H" 45 DWORD_HIGH DECI;
  member "E_GENERATED_L" 46 DWORD_LOW DECI;
  member "WORK_TIME_TOTAL_H" 47 DWORD_HIGH UNIT;
  member "WORK_TIME_TOTAL_L" 48 DWORD_LOW UNIT;
  member "SYSTEM_MODE" 49 WORD UNIT;
  member "V_BAT" 50 WORD CENTI;
  member "I_BAT" 51 SWORD CENTI;
  member "P_BAT" 52 SWORD UNIT;
  member "V_OUTPUT" 53 WORD DECI;
  member "F_OUTPUT" 54 WORD CENTI;
  member "TEMP_CHARGER" 55 WORD DECI;
  member "TEMP_BAT" 56 WORD DECI;
  member "CHARGER_WARNING_CODE" 57 WORD UNIT;
  member "P_GRID_PORT" 58 WORD CENTI;
  member "BATTERY_PERCENT" 59 WORD UNIT;
  member "REG060" 60 WORD UNIT;
  member "REG061" 61 WORD UNIT;
  member "REG062" 62 WORD UNIT;
  member "REG063" 63 WORD UNIT;
  member "REG064" 64 WORD UNIT;
  member "REG065" 65 WORD UNIT;
  member "REG066" 66 WORD UNIT;
  member "REG067" 67 WORD UNIT;
  member "REG068" 68 WORD UNIT;
  member "REG069" 69 WORD UNIT;
  member "REG070" 70 WORD UNIT;
  member "REG071" 71 WORD UNIT;
  member "REG072" 72 WORD UNIT;
  member "REG073" 73 WORD UNIT;
  member "REG074" 74 WORD UNIT;
  member "REG075" 75 WORD UNIT;
  member "REG076" 76 WORD UNIT;
  member "REG077" 77 WORD UNIT;
  member "REG078" 78 WORD UNIT;
  member "REG079" 79 WORD UNIT;
  member "REG080" 80 WORD UNIT;
  member "REG081" 81 WORD UNIT;
  member "REG082" 82 WORD UNIT;
  member "REG083" 83 WORD UNIT;
  member "REG084" 84 WORD UNIT;
  member "REG085" 85 WORD UNIT;
  member "REG086" 86 WORD UNIT;
  member "REG087" 87 WORD UNIT;
  member "REG088" 88 WORD UNIT;
  member "REG089" 89 WORD UNIT;
  member "REG090" 90 WORD UNIT;
  member "REG091" 91 WORD UNIT;
  member "REG092" 92 WORD UNIT;
  member "REG093" 93 WORD UNIT;
  member "REG094" 94 WORD UNIT;
  member "REG095" 95 WORD UNIT;
  member "REG096" 96 WORD UNIT;
  member "REG097" 97 WORD UNIT;
  member "REG098" 98 WORD UNIT;
  member "REG099" 99 WORD UNIT;
  member "REG100" 100 WORD UNIT;
  member "REG101" 101 WORD UNIT;
  member "REG102" 102 WORD UNIT;
  member "REG103" 103 WORD UNIT;
  member "REG104" 104 WORD UNIT;
  member "E_BATTERY_DISCHARGE_AC_TOTAL" 105 WORD DECI;
  member "E_BATTERY_CHARGE_AC_TOTAL" 106 WORD DECI;
  member "REG107" 107 WORD UNIT;
  member "REG108" 108 WORD UNIT;
  member "REG109" 109 WORD UNIT;
  member "BATTERY_SERIAL_NUMBER_5" 110 ASCII UNIT;
  member "BATTERY_SERIAL_NUMBER_4" 111 ASCII UNIT;
  member "BATTERY_SERIAL_NUMBER_3" 112 ASCII UNIT;
  member "BATTERY_SERIAL_NUMBER_2" 113 ASCII UNIT;
  member "BATTERY_SERIAL_NUMBER_1" 114 ASCII UNIT;
  member "REG115" 115 WORD UNIT;
  member "REG116" 116 WORD UNIT;
  member "REG117" 117 WORD UNIT;
  member "REG118" 118 WORD UNIT;
  member "REG119" 119 WORD UNIT;
  member "REG120" 120 WORD UNIT;
  member "REG121" 121 WORD UNIT;
  member "REG122" 122 WORD UNIT;
  member "REG123" 123 WORD UNIT;
  member "REG124" 124 WORD UNIT;
  member "REG125" 125 WORD UNIT;
  member "REG126" 126 WORD UNIT;
  member "REG127" 127 WORD UNIT;
  member "REG128" 128 WORD UNIT;
  member "REG129" 129 WORD UNIT;
  member "REG130" 130 WORD UNIT;
  member "REG131" 131 WORD UNIT;
  member "REG132" 132 WORD UNIT;
  member "REG133" 133 WORD UNIT;
  member "REG134" 134 WORD UNIT;
  member "REG135" 135 WORD UNIT;
  member "REG136" 136 WORD UNIT;
  member "REG137" 137 WORD UNIT;
  member "REG138" 138 WORD UNIT;
  member "REG139" 139 WORD UNIT;
  member "REG140" 140 WORD UNIT;
  member "REG141" 141 WORD UNIT;
  member "REG142" 142 WORD UNIT;
  member "REG143" 143 WORD UNIT;
  member "REG144" 144 WORD UNIT;
  member "REG145" 145 WORD UNIT;
  member "REG146" 146 WORD UNIT;
  member "REG147" 147 WORD UNIT;
  member "REG148" 148 WORD UNIT;
  member "REG149" 149 WORD UNIT;
  member "REG150" 150 WORD UNIT;
  member "REG151" 151 WORD UNIT;
  member "REG152" 152 WORD UNIT;
  member "REG153" 153 WORD UNIT;
  member "REG154" 154 WORD UNIT;
  member "REG155" 155 WORD UNIT;
  member "REG156" 156 WORD UNIT;
  member "REG157" 157 WORD UNIT;
  member "REG158" 158 WORD UNIT;
  member "REG159" 159 WORD UNIT;
  member "REG160" 160 WORD UNIT;
  member "REG161" 161 WORD UNIT;
  member "REG162" 162 WORD UNIT;
  member "REG163" 163 WORD UNIT;
  member "REG164" 164 WORD UNIT;
  member "REG165" 165 WORD UNIT;
  member "REG166" 166 WORD UNIT;
  member "REG167" 167 WORD UNIT;
  member "REG168" 168 WORD UNIT;
  member "REG169" 169 WORD UNIT;
  member "REG170" 170 WORD UNIT;
  member "REG171" 171 WORD UNIT;
  member "REG172" 172 WORD UNIT;
  member "REG173" 173 WORD UNIT;
  member "REG174" 174 WORD UNIT;
  member "REG175" 175 WORD UNIT;
  member "REG176" 176 WORD UNIT;
  member "REG177" 177 WORD UNIT;
  member "REG178" 178 WORD UNIT;
  member "REG179" 179 WORD UNIT;
  member "E_BATTERY_DISCHARGE_TOTAL" 180 WORD DECI;
  member "E_BATTERY_CHARGE_TOTAL" 181 WORD DECI
].

(* ===================================================================== *)
(** * Register identities *)
(* ===================================================================== *)

(** Modelled from the spec: [register_cache.py] imports [Register], [HR] and
    [IR] from [register.py], which does not define them.  Following the
    specification, a register identity is a bank together with an offset,
    two identities are equal when both agree, and its textual form (the key
    it is serialized under) is the bank abbreviation followed by the offset in
    parentheses, as in [HR(13)]. *)
Inductive Bank : Type :=
| Holding
| Input.

Record Register : Type := mk_Register {
  bank : Bank;
  offset : Z
}.

Definition HR (idx : Z) : Register := mk_Register Holding idx.
Definition IR (idx : Z) : Register := mk_Register Input idx.

Definition abbrev (b : Bank) : string :=
  match b with
  | Holding => "HR"
  | Input => "IR"
  end.

Definition Register_str (r : Register) : string :=
  abbrev (bank r) +:+ "(" +:+ str_of_int (offset r) +:+ ")".

#[export] Instance Bank_eq_dec : EqDecision Bank.
Proof. solve_decision. Defined.

#[export] Instance Register_eq_dec : EqDecision Register.
Proof. solve_decision. Defined.

#[export] Instance Register_countable : Countable Register.
Proof.
  refine (inj_countable'
            (λ r, (bool_decide (bank r = Holding), offset r))
            (λ p, mk_Register (if p.1 then Holding else Input) p.2) _).
  intros [[] z]; reflexivity.
Defined.

(* ===================================================================== *)
(** * register_cache.py *)
(* ===================================================================== *)

(** [class RegisterCache(DefaultDict[Register, int])]: a dictionary from
    registers to values whose default factory is [lambda: None]. *)
Abbreviation RegisterCache := (gmap Register pyval).

(** [RegisterCache(registers)]: [registers=None] gives the empty cache. *)
Definition RegisterCache_init (registers : option RegisterCache)
    : RegisterCache :=
  match registers with
  | None => ∅
  | Some d => d
  end.

(** Methods read and write the cache they are called on and may raise: a
    computation takes the cache and returns an outcome with the cache as the
    call left it. *)
Definition M (A : Type) : Type := RegisterCache → result A * RegisterCache.

#[export] Instance M_ret : MRet M := λ A a c, (Ok a, c).
#[export] Instance M_bind : MBind M := λ A B k m c,
  match m c with
  | (Ok a, c') => k a c'
  | (Raise e, c') => (Raise e, c')
  end.

(** An outcome that does not touch the cache. *)
Definition lift {A} (r : result A) : M A := λ c, (r, c).

Fixpoint mapM {A B} (f : A → M B) (l : list A) : M (list B) :=
  match l with
  | [] => mret []
  | a :: l' => b ← f a; bs ← mapM f l'; mret (b :: bs)
  end.

Fixpoint foldM {A B} (f : B → A → M B) (acc : B) (l : list A) : M B :=
  match l with
  | [] => mret acc
  | a :: l' => acc' ← f acc a; foldM f acc' l'
  end.

(** [self[r]]: a missing key calls the default factory, stores what it
    returns under the key and returns it. *)
Definition getitem (r : Register) : M pyval := λ c,
  match c !! r with
  | Some v => (Ok v, c)
  | None => (Ok PNone, <[r := PNone]> c)
  end.

(** [self.get(r, default)]: [dict.get], which never calls the default
    factory and never stores anything. *)
Definition get (r : Register) (default : pyval) : M pyval := λ c,
  (Ok (from_option id default (c !! r)), c).

(** [r in self]. *)
Definition contains (c : RegisterCache) (r : Register) : bool :=
  bool_decide (is_Some (c !! r)).

(** ** Serialization *)

(** The serialized form is a JSON object with one member per entry.  The
    text itself is produced by [json.dumps] and read by [json.loads], both of
    the standard library; here the object stands for its text: its members in
    the order the text lists them, each a key and a value ([null] or an
    integer).  A text may repeat a key.  Keys are text over the code points
    below 256. *)
Definition json_object : Type := list (string * pyval).

(** [d[k] = v] on a dictionary kept in insertion order: a key already there
    keeps its position and takes the new value, a new key goes last. *)
Fixpoint dict_set (d : json_object) (k : string) (v : pyval) : json_object :=
  match d with
  | [] => [(k, v)]
  | (k', v') :: d' =>
      if bool_decide (k' = k) then (k', v) :: d'
      else (k', v') :: dict_set d' k v
  end.

(** The dictionary [json.loads] builds from the members of an object before
    it calls the hook: a repeated key keeps the position of its first
    occurrence and the value of its last. *)
Definition dict_of_pairs (pairs : json_object) : json_object :=
  foldl (λ d kv, dict_set d kv.1 kv.2) [] pairs.

(** [json.dumps] of a cache whose entries are iterated in the order [items]:
    one member per entry, keyed by the textual form of the register. *)
Definition json_of_items (items : list (Register * pyval)) : json_object :=
  (λ kv, (Register_str kv.1, kv.2)) <$> items.

(** [RegisterCache.json(self)].  A [gmap] does not record the order in which
    entries were inserted, so the members come in the order of [map_to_list];
    the round-trip theorem holds for every order. *)
Definition json (self : RegisterCache) : json_object :=
  json_of_items (map_to_list self).

(** [lookup = {"HR": HR, "IR": IR}] and [lookup[reg]]. *)
Definition lookup (reg : string) : result (Z → Register) :=
  if bool_decide (reg = "HR") then Ok HR
  else if bool_decide (reg = "IR") then Ok IR
  else Raise (KeyError reg).

(** The first part of the loop body of [register_object_hook]: split the key
    into the bank abbreviation and the index text. *)
Definition split_key (k : string) : result (string * string) :=
  if 0 <? find "(" k then
    match split1 "(" k with
    | [reg; idx] => Ok (reg, drop_last idx)
    | _ => Raise ValueError
    end
  else if 0 <? find ":" k then
    match split1 ":" k with
    | [reg; idx] => Ok (reg, idx)
    | _ => Raise ValueError
    end
  else Raise ValueError.

(** [register_object_hook(object_dict)], as a loop over the remaining items
    with the dictionary [ret] built so far. *)
Fixpoint register_object_hook_loop (items : json_object) (ret : RegisterCache)
    : result RegisterCache :=
  match items with
  | [] => Ok ret
  | (k, v) :: rest =>
      p ← split_key k;
      match (ctor ← lookup p.1; n ← int_of_str p.2; Ok (ctor n)) with
      | Ok r => register_object_hook_loop rest (<[r := v]> ret)
      | Raise ValueError =>
          (* unknown register, discard silently *)
          register_object_hook_loop rest ret
      | Raise e => Raise e
      end
  end.

Definition register_object_hook (object_dict : json_object)
    : result RegisterCache :=
  register_object_hook_loop object_dict ∅.

(** [RegisterCache.from_json(data)]: [json.loads] builds the dictionary of
    the object and hands it to the hook; the cache is made from what the hook
    returns. *)
Definition from_json (data : json_object) : result RegisterCache :=
  d ← register_object_hook (dict_of_pairs data);
  Ok (RegisterCache_init (Some d)).

(** ** Helper methods converting register data *)

(** [v.to_bytes(2, byteorder="big")] on a cache value. *)
Definition val_to_bytes (v : pyval) : result (Z * Z) :=
  match v with
  | PNone => Raise AttributeError
  | PInt z => to_bytes2 z
  end.

(** [f"{v:04x}"] on a cache value. *)
Definition val_format_04x (v : pyval) : result string :=
  match v with
  | PNone => Raise TypeError
  | PInt z => Ok (format_04x z)
  end.

(** [v >> n], [v << n], [v & m], [v + w] on cache values. *)
Definition val_int (v : pyval) : result Z :=
  match v with
  | PNone => Raise TypeError
  | PInt z => Ok z
  end.

Definition to_string (registers : list Register) : M ustr :=
  parts ← mapM (λ r, v ← getitem r;
                     lift (decode_latin1_2 <$> val_to_bytes v)) registers;
  let s := concat parts in
  mret (concat (u_upper <$> filter (λ n, u_isalnum n = true) s)).

Definition to_hex_string (registers : list Register) : M string :=
  values ← mapM (λ r, v ← getitem r; lift (val_format_04x v)) registers;
  if forallb (λ s, negb (String.eqb s "")) values then
    ret ← foldM (λ ret r, v ← getitem r;
                          s ← lift (val_format_04x v);
                          mret (ret +:+ s)) "" registers;
    mret (upper (str_filter isalnum ret))
  else mret "".

Definition to_duint8 (registers : list Register) : M (list Z) :=
  pairs ← mapM (λ r, v ← getitem r;
                     hi ← lift (val_int v);
                     w ← getitem r;
                     lo ← lift (val_int w);
                     mret [Z.shiftr hi 8; Z.land lo 255]) registers;
  mret (concat pairs).

Definition to_uint32 (high_register low_register : Register) : M Z :=
  h ← getitem high_register;
  h ← lift (val_int h);
  l ← getitem low_register;
  l ← lift (val_int l);
  mret (Z.shiftl h 16 + l).

(** The body of the [try] block of [to_datetime]. *)
Definition to_datetime_try (y m d h min s : Register) : M datetime :=
  vy ← getitem y;
  vy ← lift (val_int vy);
  vm ← get m (PInt 1);
  vd ← get d (PInt 1);
  vh ← getitem h;
  vmin ← getitem min;
  vs ← getitem s;
  lift (datetime_new (PInt (vy + 2000)) vm vd vh vmin vs).

(** [to_datetime]: any exception of the [try] block is caught and the
    handler evaluates [datetime.datetime(2000, 0, 0, 0, 0, 0)]. *)
Definition to_datetime (y m d h min s : Register) : M datetime := λ c,
  match to_datetime_try y m d h min s c with
  | (Ok dt, c') => (Ok dt, c')
  | (Raise _, c') =>
      (datetime_new (PInt 2000) (PInt 0) (PInt 0) (PInt 0) (PInt 0) (PInt 0),
       c')
  end.

(* ===================================================================== *)
(** * Vocabulary of the statements *)
(* ===================================================================== *)

(** The exception a plain dictionary lookup raises for a missing register:
    a [KeyError] carrying the textual form of that register. *)
Definition MissingRegister (r : Register) : exn := KeyError (Register_str r).

(** A call failed with one of the exceptions Python raises when [None] or an
    out-of-range [int] is used as a 16-bit word; none of them carries a
    register. *)
Definition fails_unnamed {A} (x : result A * RegisterCache) : Prop :=
  ∃ e c', x = (Raise e, c') ∧ e ∈ [TypeError; AttributeError; OverflowError].

(** The errors with which [from_json] rejects a key: the [ValueError] raised
    for a key of neither textual form, and the [KeyError] of the bank table. *)
Definition MalformedKey (e : exn) : Prop :=
  e = ValueError ∨ ∃ reg, e = KeyError reg.

(** A cache holding the six clock registers of the holding bank. *)
Definition clock_cache (y m d h min s : Z) : RegisterCache :=
  <[HR 35 := PInt y]> (<[HR 36 := PInt m]> (<[HR 37 := PInt d]>
  (<[HR 38 := PInt h]> (<[HR 39 := PInt min]> (<[HR 40 := PInt s]> ∅))))).

(** One iteration of the loop of [register_object_hook]: [None] when the
    entry is discarded. *)
Definition hook_entry (k : string) : result (option Register) :=
  p ← split_key k;
  match (ctor ← lookup p.1; n ← int_of_str p.2; Ok (ctor n)) with
  | Ok r => Ok (Some r)
  | Raise ValueError => Ok None
  | Raise e => Raise e
  end.

(** Concatenation of a list of strings. *)
Definition str_concat (l : list string) : string := foldr String.append "" l.

(** ** Pairing of the double-word halves in a register table *)

(** The member at position [i] of [tbl] is [e]; if it is a high half, the
    next member is the low half at the next index with the same scaling, and
    if it is a low half, the previous member is the matching high half. *)
Definition dword_paired_at (tbl : list RegisterBank) (i : nat)
    (e : RegisterBank) : Prop :=
  (type e = DWORD_HIGH →
   ∃ e', tbl !! S i = Some e' ∧ type e' = DWORD_LOW
         ∧ value e' = value e + 1 ∧ scaling e' = scaling e)
  ∧ (type e = DWORD_LOW →
     ∃ i' e', i = S i' ∧ tbl !! i' = Some e' ∧ type e' = DWORD_HIGH
              ∧ value e' = value e - 1 ∧ scaling e' = scaling e).

(** [e'] is the [want] half next to [e], [delta] away. *)
Definition is_half (want : Type_) (delta : Z) (e : RegisterBank)
    (o : option RegisterBank) : bool :=
  match o with
  | Some e' =>
      bool_decide (type e' = want) && (value e' =? value e + delta)
      && bool_decide (scaling e' = scaling e)
  | None => false
  end.

(** The same, decided for position [i]; also checks that the index of a
    member is its position in the table. *)
Definition dword_check (tbl : list RegisterBank) (i : nat) : bool :=
  match tbl !! i with
  | None => true
  | Some e =>
      (value e =? Z.of_nat i)
      && (if bool_decide (type e = DWORD_HIGH)
          then is_half DWORD_LOW 1 e (tbl !! S i) else true)
      && (if bool_decide (type e = DWORD_LOW)
          then match i with
               | O => false
               | S i' => is_half DWORD_HIGH (-1) e (tbl !! i')
               end
          else true)
  end.

(* ===================================================================== *)
(** * Further vocabulary: bytes, hexadecimal words, calendar validity *)
(* ===================================================================== *)

(** The two bytes of a word, most significant first, as [to_duint8] and
    [to_string] read them. *)
Definition word_bytes (z : Z) : list Z := [Z.shiftr z 8; Z.land z 255].

(** An upper-case hexadecimal digit and the four of a 16-bit word. *)
Definition HEX_digit (d : Z) : ascii :=
  if d <? 10 then chr (48 + d) else chr (55 + d).

Definition hex4 (z : Z) : string :=
  String (HEX_digit (z / 4096))
    (String (HEX_digit (z / 256 mod 16))
       (String (HEX_digit (z / 16 mod 16))
          (String (HEX_digit (z mod 16)) ""))).

(** The cache [c'] is [c] with [None] stored under some registers that were
    missing from [c]: nothing stored is changed or removed. *)
Definition only_adds_none (c c' : RegisterCache) : Prop :=
  ∀ r, c' !! r = c !! r ∨ (c !! r = None ∧ c' !! r = Some PNone).

(** A computation that only ever adds [None] entries. *)
Definition adds_none_only {A} (m : M A) : Prop :=
  ∀ c, only_adds_none c (m c).2.

(** The fields of a timestamp are a date of the calendar and a time of day. *)
Definition datetime_valid (dt : datetime) : Prop :=
  1 ≤ year dt ≤ 9999 ∧ 1 ≤ month dt ≤ 12
  ∧ 1 ≤ day dt ≤ days_in_month (year dt) (month dt)
  ∧ 0 ≤ hour dt ≤ 23 ∧ 0 ≤ minute dt ≤ 59 ∧ 0 ≤ second dt ≤ 59.

(** A code point that is an ASCII digit or upper-case letter. *)
Definition is_serial_char (n : Z) : bool := between 48 57 n || between 65 90 n.

(** The legacy key of a register: abbreviation, colon, offset. *)
Definition colon_key (r : Register) : string :=
  abbrev (bank r) +:+ ":" +:+ str_of_int (offset r).

(** Calling a register enumeration with a value, as in [HoldingRegister(13)]:
    the member with that value, or a [ValueError]. *)
Definition RegisterBank_call (tbl : list RegisterBank) (n : Z)
    : result RegisterBank :=
  match list_find (λ e, value e = n) tbl with
  | Some (_, e) => Ok e
  | None => Raise ValueError
  end.

(** A key whose entry the loop of [register_object_hook] does not discard. *)
Definition key_kept (k : string) : bool :=
  match hook_entry k with
  | Ok None => false
  | _ => true
  end.

(** The step of [dict_of_pairs]. *)
Definition dict_step (d : json_object) (kv : string * pyval) : json_object :=
  dict_set d kv.1 kv.2.

(** Storing under [x] in a dictionary split around an entry of another key:
    the store lands in the part before it when [x] is there, else in the part
    after it. *)
Definition split_set (x : string) (w : pyval)
    (p : json_object * json_object) : json_object * json_object :=
  if bool_decide (x ∈ p.1.*1) then (dict_set p.1 x w, p.2)
  else (p.1, dict_set p.2 x w).

(* ===================================================================== *)
(** * The model on concrete inputs *)
(* ===================================================================== *)

Section Examples.

Example str_of_int_13 : str_of_int 13 = "13".
Proof. reflexivity. Qed.

Example str_of_int_neg : str_of_int (-130) = "-130".
Proof. reflexivity. Qed.

Example format_04x_255 : format_04x 255 = "00ff".
Proof. reflexivity. Qed.

Example format_04x_neg : format_04x (-1) = "-001".
Proof. reflexivity. Qed.

Example format_04x_wide : format_04x 1048575 = "fffff".
Proof. reflexivity. Qed.

Example int_of_str_spaces : int_of_str " 1_3 " = Ok 13.
Proof. reflexivity. Qed.

Example int_of_str_letters : int_of_str "abc" = Raise ValueError.
Proof. reflexivity. Qed.

Example int_of_str_empty : int_of_str "" = Raise ValueError.
Proof. reflexivity. Qed.

Example split_key_paren : split_key "HR(13)" = Ok ("HR", "13").
Proof. reflexivity. Qed.

Example split_key_colon : split_key "IR:7" = Ok ("IR", "7").
Proof. reflexivity. Qed.

Example split_key_leading_paren : split_key "(5)" = Raise ValueError.
Proof. reflexivity. Qed.

Example Register_str_HR13 : Register_str (HR 13) = "HR(13)".
Proof. reflexivity. Qed.

Example render_bool_odd : render BOOL 3 (Scaling_value UNIT) = Ok (RBool true).
Proof. reflexivity. Qed.

Example render_word_deci :
  render WORD 3 (Scaling_value DECI) = Ok (RNum (NFloat 0x1.3333333333334p-2)).
Proof. vm_compute. reflexivity. Qed.

Example render_ascii_AB : render ASCII 16706 (Scaling_value UNIT) = Ok (RStr "AB").
Proof. reflexivity. Qed.

Example to_string_ABCD :
  (to_string [HR 13; HR 14]
     (<[HR 13 := PInt 16706]> (<[HR 14 := PInt 17220]> ∅))).1
  = Ok (ustr_of_string "ABCD").
Proof. vm_compute. reflexivity. Qed.

Example to_duint8_bytes :
  (to_duint8 [HR 13; HR 14]
     (<[HR 13 := PInt 16706]> (<[HR 14 := PInt 17220]> ∅))).1
  = Ok [65; 66; 67; 68].
Proof. vm_compute. reflexivity. Qed.

Example to_datetime_valid :
  (to_datetime (HR 35) (HR 36) (HR 37) (HR 38) (HR 39) (HR 40)
     (clock_cache 22 12 31 23 59 58)).1
  = Ok (mk_datetime 2022 12 31 23 59 58).
Proof. vm_compute. reflexivity. Qed.

Example from_json_colon_form :
  from_json [("HR:5", PInt 3); ("IR(7)", PNone)]
  = Ok (<[IR 7 := PNone]> (<[HR 5 := PInt 3]> ∅)).
Proof. vm_compute. reflexivity. Qed.

Example int_of_str_separator :
  int_of_str (String (chr 28) "5") = Raise ValueError.
Proof. reflexivity. Qed.

Example from_json_repeated_key :
  from_json [("HR(1)", PInt 1); ("HR:1", PInt 2); ("HR(1)", PInt 3)]
  = Ok (<[HR 1 := PInt 2]> ∅).
Proof. vm_compute. reflexivity. Qed.

End Examples.

(* ===================================================================== *)
(** * Properties of [render] *)
(* ===================================================================== *)

Section Render.

(** Bit 15 of a 16-bit word is set exactly from [32768] on. *)
Lemma land_bit15 (v : Z) :
  0 ≤ v < 65536 →
  (Z.land v (Z.shiftl 1 (16 - 1)) =? 0) = (v <? 32768).
Proof.
  intros Hv. change (Z.shiftl 1 (16 - 1)) with (2 ^ 15).
  destruct (Z.ltb_spec v 32768) as [Hlt|Hge].
  - apply Z.eqb_eq, Z.bits_inj'. intros n Hn.
    rewrite Z.land_spec, Z.bits_0, Z.pow2_bits_eqb by lia.
    destruct (Z.eqb_spec 15 n) as [<-|]; [|apply andb_false_r].
    rewrite andb_true_r. apply Z.testbit_false; [lia|].
    rewrite Z.div_small by lia. reflexivity.
  - apply Z.eqb_neq. intros H0.
    assert (Hb : Z.testbit (Z.land v (2 ^ 15)) 15 = true).
    { rewrite Z.land_spec, Z.pow2_bits_eqb, Z.eqb_refl, andb_true_r by lia.
      apply Z.testbit_true; [lia|].
      assert (v / 2 ^ 15 = 1) as ->; [|reflexivity].
      symmetry. apply (Z.div_unique v (2 ^ 15) 1 (v - 32768)); lia. }
    rewrite H0, Z.bits_0 in Hb. discriminate.
Qed.

Lemma float_of_int_small (z : Z) :
  Z.abs z < 2 ^ 63 → is_ok (float_of_int z) = true.
Proof.
  intros Hz. unfold float_of_int.
  destruct (Z.ltb_spec (Z.abs z) (2 ^ 63)); [reflexivity | lia].
Qed.

Lemma int_mul_small (z : Z) (k : pynum) :
  Z.abs z < 2 ^ 63 → is_ok (int_mul z k) = true.
Proof.
  intros Hz. destruct k as [k|f]; simpl; [reflexivity|].
  pose proof (float_of_int_small z Hz) as Hok.
  destruct (float_of_int z); [reflexivity | discriminate].
Qed.

Lemma is_ok_fmap {A B} (f : A → B) (r : result A) :
  is_ok (f <$> r) = is_ok r.
Proof. destruct r; reflexivity. Qed.

(** Every kind but [ASCII] renders every 16-bit word. *)
Lemma render_total_non_ascii (t : Type_) (s : Scaling) (v : Z) :
  0 ≤ v < 65536 → t ≠ ASCII →
  is_ok (render t v (Scaling_value s)) = true.
Proof.
  intros Hv Ht. unfold render.
  destruct t; simpl; try congruence; rewrite ?is_ok_fmap.
  - apply int_mul_small; lia.
  - apply int_mul_small. rewrite Z.shiftl_mul_pow2; lia.
  - apply int_mul_small; lia.
  - rewrite land_bit15 by lia. change (Z.shiftl 1 16) with 65536.
    destruct (Z.ltb_spec v 32768); simpl; apply int_mul_small; lia.
Qed.

(** An [ASCII] register whose two bytes are below 128 renders as the two
    characters, most significant byte first. *)
Lemma render_ascii_7bit (v : Z) (k : pynum) :
  0 ≤ v < 65536 → v / 256 < 128 → v mod 256 < 128 →
  render ASCII v k = Ok (RStr (String (chr (v / 256)) (String (chr (v mod 256)) ""))).
Proof.
  intros Hv Hhi Hlo. unfold render; simpl. unfold to_bytes2.
  destruct (Z.leb_spec 0 v); [|lia]. destruct (Z.ltb_spec v 65536); [|lia].
  simpl. rewrite Z.shiftr_div_pow2 by lia. change (2 ^ 8) with 256.
  change 255 with (Z.ones 8). rewrite Z.land_ones by lia. change (2 ^ 8) with 256.
  destruct (Z.ltb_spec (v / 256) 128); [|lia].
  destruct (Z.ltb_spec (v mod 256) 128); [|lia]. reflexivity.
Qed.

(** ... and raises as soon as one byte is 128 or more. *)
Lemma render_ascii_8bit (v : Z) (k : pynum) :
  0 ≤ v < 65536 → 128 ≤ v / 256 ∨ 128 ≤ v mod 256 →
  render ASCII v k = Raise UnicodeDecodeError.
Proof.
  intros Hv Hb. unfold render; simpl. unfold to_bytes2.
  destruct (Z.leb_spec 0 v); [|lia]. destruct (Z.ltb_spec v 65536); [|lia].
  simpl. rewrite Z.shiftr_div_pow2 by lia. change (2 ^ 8) with 256.
  change 255 with (Z.ones 8). rewrite Z.land_ones by lia. change (2 ^ 8) with 256.
  destruct (Z.ltb_spec (v / 256) 128); destruct (Z.ltb_spec (v mod 256) 128);
    simpl; try reflexivity; lia.
Qed.

End Render.

(** C4: [render] is not total over the 16-bit words: for the kind [ASCII]
    the word [0xFFFF], whose bytes are not 7-bit, is rejected with a
    [UnicodeDecodeError] instead of being rendered as two characters. *)
Theorem render_ascii_high_byte_raises :
  render ASCII 65535 (Scaling_value UNIT) = Raise UnicodeDecodeError.
Proof. apply render_ascii_8bit; [lia | left; apply Z.leb_le; reflexivity]. Qed.



(* ===================================================================== *)
(** * Properties of the cache helpers *)
(* ===================================================================== *)

Ltac run :=
  repeat (progress (unfold mbind, M_bind, mret, M_ret, lift; simpl)).

Section Cache.

Implicit Types (c : RegisterCache) (r : Register) (v : pyval).

Lemma getitem_present c r v : c !! r = Some v → getitem r c = (Ok v, c).
Proof. intros H. unfold getitem. rewrite H. reflexivity. Qed.

Lemma getitem_absent c r :
  c !! r = None → getitem r c = (Ok PNone, <[r := PNone]> c).
Proof. intros H. unfold getitem. rewrite H. reflexivity. Qed.

Lemma bind_ok {A B} (m : M A) (k : A → M B) c a c' :
  m c = (Ok a, c') → (m ≫= k) c = k a c'.
Proof. intros H. unfold mbind, M_bind. rewrite H. reflexivity. Qed.

Lemma bind_raise {A B} (m : M A) (k : A → M B) c e c' :
  m c = (Raise e, c') → (m ≫= k) c = (Raise e, c').
Proof. intros H. unfold mbind, M_bind. rewrite H. reflexivity. Qed.

Lemma fails_unnamed_bind {A B} (m : M A) (k : A → M B) c :
  fails_unnamed (m c) → fails_unnamed ((m ≫= k) c).
Proof.
  intros (e & c' & Hm & He). exists e, c'. split; [|exact He].
  by apply bind_raise.
Qed.

Lemma fails_unnamed_not_missing {A} (x : result A * RegisterCache) r e c' :
  fails_unnamed x → x = (Raise e, c') → e ≠ MissingRegister r.
Proof.
  intros (e' & c'' & -> & He) [= <- _] Heq. rewrite Heq in He.
  repeat (apply elem_of_cons in He as [He|He]; [discriminate|]).
  by apply elem_of_nil in He.
Qed.

(** ** A register missing from the list given to a helper

    [f] is the work done per register.  When it fails on a missing register
    and, on a stored one, either fails or leaves the cache as it was, then
    running it over a list that names a missing register fails. *)
Section MapM.
Context {B : Type} (f : Register → M B).
Hypothesis f_absent : ∀ c r, c !! r = None → fails_unnamed (f r c).
Hypothesis f_present : ∀ c r v, c !! r = Some v →
  fails_unnamed (f r c) ∨ ∃ b, f r c = (Ok b, c).

Lemma mapM_absent_fails (rs : list Register) c r :
  r ∈ rs → c !! r = None → fails_unnamed (mapM f rs c).
Proof.
  induction rs as [|r0 rs IH]; intros Hin Hr; [by apply elem_of_nil in Hin|].
  simpl. destruct (c !! r0) as [v|] eqn:Hr0.
  - destruct (f_present c r0 v Hr0) as [Hf|[b Hb]].
    + by apply fails_unnamed_bind.
    + rewrite (bind_ok _ _ _ _ _ Hb). apply fails_unnamed_bind, IH; [|done].
      apply elem_of_cons in Hin as [->|]; [congruence | done].
  - by apply fails_unnamed_bind, f_absent.
Qed.

End MapM.

Lemma to_string_absent_fails (rs : list Register) c r :
  r ∈ rs → c !! r = None → fails_unnamed (to_string rs c).
Proof.
  intros Hin Hr. unfold to_string. apply fails_unnamed_bind.
  apply mapM_absent_fails with (r := r); [| |done..].
  - intros c0 r0 H0. exists AttributeError, (<[r0 := PNone]> c0).
    split; [|set_solver]. run. by rewrite (getitem_absent _ _ H0).
  - intros c0 r0 v H0. run. rewrite (getitem_present _ _ _ H0).
    destruct v as [|z]; simpl.
    + left. exists AttributeError, c0. split; [done | set_solver].
    + unfold to_bytes2. destruct (_ && _); simpl; [right; eauto|].
      left. exists OverflowError, c0. split; [done | set_solver].
Qed.

Lemma to_hex_string_absent_fails (rs : list Register) c r :
  r ∈ rs → c !! r = None → fails_unnamed (to_hex_string rs c).
Proof.
  intros Hin Hr. unfold to_hex_string. apply fails_unnamed_bind.
  apply mapM_absent_fails with (r := r); [| |done..].
  - intros c0 r0 H0. exists TypeError, (<[r0 := PNone]> c0).
    split; [|set_solver]. run. by rewrite (getitem_absent _ _ H0).
  - intros c0 r0 v H0. run. rewrite (getitem_present _ _ _ H0).
    destruct v as [|z]; simpl; [left | right; eauto].
    exists TypeError, c0. split; [done | set_solver].
Qed.

Lemma to_duint8_absent_fails (rs : list Register) c r :
  r ∈ rs → c !! r = None → fails_unnamed (to_duint8 rs c).
Proof.
  intros Hin Hr. unfold to_duint8. apply fails_unnamed_bind.
  apply mapM_absent_fails with (r := r); [| |done..].
  - intros c0 r0 H0. exists TypeError, (<[r0 := PNone]> c0).
    split; [|set_solver]. run. by rewrite (getitem_absent _ _ H0).
  - intros c0 r0 v H0. run. rewrite (getitem_present _ _ _ H0).
    destruct v as [|z]; simpl.
    + left. exists TypeError, c0. split; [done | set_solver].
    + rewrite (getitem_present _ _ _ H0). simpl. right; eauto.
Qed.

Lemma to_uint32_high_absent c hi lo :
  c !! hi = None → to_uint32 hi lo c = (Raise TypeError, <[hi := PNone]> c).
Proof.
  intros H. unfold to_uint32. run. by rewrite (getitem_absent _ _ H).
Qed.

Lemma to_uint32_low_absent c hi lo :
  c !! lo = None → ∃ c', to_uint32 hi lo c = (Raise TypeError, c').
Proof.
  intros H. unfold to_uint32. run.
  destruct (c !! hi) as [[|z]|] eqn:Hhi.
  - rewrite (getitem_present _ _ _ Hhi). simpl. eauto.
  - rewrite (getitem_present _ _ _ Hhi). simpl.
    rewrite (getitem_absent _ _ H). simpl. eauto.
  - rewrite (getitem_absent _ _ Hhi). simpl. eauto.
Qed.

(** ** The [try] block of [to_datetime] and its handler *)

(** Whatever the [try] block raises, the handler raises a [ValueError] of
    its own: the month and the day it passes are [0]. *)
Lemma to_datetime_outcome (y m d h min s : Register) c :
  (∃ dt c', to_datetime_try y m d h min s c = (Ok dt, c')
            ∧ to_datetime y m d h min s c = (Ok dt, c'))
  ∨ (∃ e c', to_datetime_try y m d h min s c = (Raise e, c')
             ∧ to_datetime y m d h min s c = (Raise ValueError, c')).
Proof.
  unfold to_datetime.
  destruct (to_datetime_try y m d h min s c) as [[dt|e] c'];
    [left | right]; eauto.
Qed.

(** With the month and the day registers missing and the other four
    holding values in range, the [try] block succeeds with month [1] and
    day [1]. *)
Lemma to_datetime_defaults (y m d h min s : Register) c (vy vh vmin vs : Z) :
  c !! y = Some (PInt vy) → c !! m = None → c !! d = None →
  c !! h = Some (PInt vh) → c !! min = Some (PInt vmin) →
  c !! s = Some (PInt vs) →
  0 ≤ vy ≤ 7999 → 0 ≤ vh ≤ 23 → 0 ≤ vmin ≤ 59 → 0 ≤ vs ≤ 59 →
  to_datetime y m d h min s c
  = (Ok (mk_datetime (vy + 2000) 1 1 vh vmin vs), c).
Proof.
  intros Hy Hm Hd Hh Hmin Hs Ry Rh Rmin Rs.
  unfold to_datetime, to_datetime_try, get.
  unfold mbind, M_bind, mret, M_ret, lift.
  rewrite (getitem_present _ _ _ Hy). cbn [val_int]. rewrite Hm, Hd.
  rewrite (getitem_present _ _ _ Hh), (getitem_present _ _ _ Hmin),
    (getitem_present _ _ _ Hs).
  cbn [from_option]. unfold datetime_new, as_c_int, between.
  change (2 ^ 31) with 2147483648.
  unfold days_in_month.
  repeat (cbn -[Z.leb Z.ltb Z.add];
          match goal with
          | |- context [?a <=? ?b] => destruct (Z.leb_spec a b); [|lia]
          | |- context [?a <? ?b] => destruct (Z.ltb_spec a b); [|lia]
          end).
  reflexivity.
Qed.

End Cache.

(** C1: [to_datetime] does not shield its caller from errors: on the clock
    registers holding year [22] and the invalid month [13], with the other
    fields valid, the call raises a [ValueError] instead of returning a
    fallback timestamp, and leaves the cache as it was. *)
Theorem to_datetime_invalid_month_raises :
  to_datetime (HR 35) (HR 36) (HR 37) (HR 38) (HR 39) (HR 40)
      (clock_cache 22 13 1 0 0 0)
  = (Raise ValueError, clock_cache 22 13 1 0 0 0).
Proof. vm_compute. reflexivity. Qed.

(** C8: when both registers are stored, [to_uint32] is the high raw word
    shifted left by 16 bits plus the low raw word, computed on the raw words
    alone, and the cache is left as it was; the high word [1] and the low
    word [2] give [65538]. *)
Theorem to_uint32_raw_words (c : RegisterCache) (hi lo : Register) (vh vl : Z) :
  c !! hi = Some (PInt vh) → c !! lo = Some (PInt vl) →
  to_uint32 hi lo c = (Ok (Z.shiftl vh 16 + vl), c)
  ∧ Z.shiftl vh 16 + vl = vh * 65536 + vl
  ∧ (vh = 1 → vl = 2 → to_uint32 hi lo c = (Ok 65538, c)).
Proof.
  intros Hh Hl.
  assert (Hrun : to_uint32 hi lo c = (Ok (Z.shiftl vh 16 + vl), c)).
  { unfold to_uint32, mbind, M_bind, mret, M_ret, lift.
    rewrite (getitem_present _ _ _ Hh). simpl.
    rewrite (getitem_present _ _ _ Hl). reflexivity. }
  split; [exact Hrun|]. split.
  - rewrite Z.shiftl_mul_pow2 by lia. reflexivity.
  - intros -> ->. exact Hrun.
Qed.

Lemma to_uint32_raw_words_witness :
  to_uint32 (HR 1) (HR 2) (<[HR 1 := PInt 1]> (<[HR 2 := PInt 2]> ∅))
  = (Ok 65538, <[HR 1 := PInt 1]> (<[HR 2 := PInt 2]> ∅)).
Proof.
  refine (proj2 (proj2 (to_uint32_raw_words
     (<[HR 1 := PInt 1]> (<[HR 2 := PInt 2]> ∅)) (HR 1) (HR 2) 1 2 _ _)) _ _);
    reflexivity.
Defined.

(* ===================================================================== *)
(** * Printing and parsing register keys *)
(* ===================================================================== *)

Section Keys.

Lemma ord_chr (n : Z) : 0 ≤ n < 256 → ord (chr n) = n.
Proof.
  intros Hn. unfold ord, chr. rewrite N_ascii_embedding by lia. lia.
Qed.

Lemma dec_digit_is_digit (d : Z) :
  0 ≤ d < 10 → is_digit (dec_digit d) = true ∧ ord (dec_digit d) - 48 = d.
Proof.
  intros Hd. unfold is_digit, dec_digit. rewrite ord_chr by lia.
  split; [|lia]. apply andb_true_iff; split; apply Z.leb_le; lia.
Qed.

(** Parsing the digits printed for a positive [n] reads [n] back. *)
Lemma parse_digits_digits (fuel : nat) (n : Z) (acc : string) :
  0 < n < 2 ^ Z.of_nat fuel →
  parse_digits (digits 10 dec_digit fuel n acc) 0 false
  = parse_digits acc n true.
Proof.
  revert n acc. induction fuel as [|fuel IH]; intros n acc Hn.
  { simpl in Hn. lia. }
  assert (Hmod : 0 ≤ n mod 10 < 10) by (apply Z.mod_pos_bound; lia).
  destruct (dec_digit_is_digit _ Hmod) as [Hd Ho].
  simpl. destruct (Z.eqb_spec (n / 10) 0) as [Hq|Hq].
  - simpl. rewrite Hd, Ho. f_equal.
    pose proof (Z.div_mod n 10). lia.
  - rewrite IH.
    + simpl. rewrite Hd, Ho. f_equal. pose proof (Z.div_mod n 10). lia.
    + assert (0 ≤ n / 10) by (apply Z.div_pos; lia).
      split; [lia|].
      apply Z.div_lt_upper_bound; [lia|].
      rewrite Nat2Z.inj_succ, Z.pow_succ_r in Hn by lia. lia.
Qed.

Lemma digits_all_digits (fuel : nat) (n : Z) (acc : string) :
  0 ≤ n → str_forallb is_digit acc = true →
  str_forallb is_digit (digits 10 dec_digit fuel n acc) = true.
Proof.
  revert n acc. induction fuel as [|fuel IH]; intros n acc Hn Hacc; [done|].
  assert (Hmod : 0 ≤ n mod 10 < 10) by (apply Z.mod_pos_bound; lia).
  destruct (dec_digit_is_digit _ Hmod) as [Hd _].
  simpl. destruct (n / 10 =? 0).
  - simpl. by rewrite Hd, Hacc.
  - apply IH; [apply Z.div_pos; lia|]. simpl. by rewrite Hd, Hacc.
Qed.

Lemma digits_nonempty (base : Z) (digit : Z → ascii) (fuel : nat) (n : Z)
    (acc : string) :
  acc ≠ "" ∨ (0 < fuel)%nat → digits base digit fuel n acc ≠ "".
Proof.
  revert n acc. induction fuel as [|fuel IH]; intros n acc H; simpl.
  - destruct H; [done | lia].
  - destruct (n / base =? 0); [done|]. apply IH. by left.
Qed.

Lemma is_digit_not_space (a : ascii) : is_digit a = true → is_space a = false.
Proof.
  unfold is_digit, is_space. intros [H1 H2]%andb_true_iff.
  apply Z.leb_le in H1, H2.
  repeat (apply orb_false_iff; split).
  - apply andb_false_iff. right. apply Z.leb_gt. lia.
  - apply Z.eqb_neq. lia.
  - apply Z.eqb_neq. lia.
  - apply Z.eqb_neq. lia.
Qed.

Lemma rstrip_no_space (s : string) :
  str_forallb (λ a, negb (is_space a)) s = true → rstrip s = s.
Proof.
  induction s as [|a s IH]; [done|]. simpl.
  intros [Ha Hs]%andb_true_iff. rewrite (IH Hs).
  apply negb_true_iff in Ha. rewrite Ha. by destruct s.
Qed.

Lemma str_forallb_impl (p q : ascii → bool) (s : string) :
  (∀ a, p a = true → q a = true) →
  str_forallb p s = true → str_forallb q s = true.
Proof.
  intros Hpq. induction s as [|a s IH]; [done|]. simpl.
  intros [Ha Hs]%andb_true_iff. by rewrite (Hpq _ Ha), (IH Hs).
Qed.

(** Text made of decimal digits is read by [int()] digit by digit. *)
Lemma int_of_str_digits (s : string) :
  str_forallb is_digit s = true → s ≠ "" →
  int_of_str s = match parse_digits s 0 false with
                 | Some z => Ok z
                 | None => Raise ValueError
                 end
  ∧ strip s = s.
Proof.
  intros Hs Hne.
  assert (Hstrip : strip s = s).
  { unfold strip. destruct s as [|a s]; [done|]. simpl in Hs.
    apply andb_true_iff in Hs as [Ha Hs].
    assert (Hsp := is_digit_not_space _ Ha).
    cbn [lstrip]. rewrite Hsp. apply rstrip_no_space. simpl.
    rewrite Hsp. simpl. eapply str_forallb_impl; [|exact Hs].
    intros b Hb. by rewrite (is_digit_not_space _ Hb). }
  split; [|exact Hstrip].
  unfold int_of_str. rewrite Hstrip. destruct s as [|a s]; [done|].
  simpl in Hs. apply andb_true_iff in Hs as [Ha _].
  destruct (Ascii.eqb_spec a "-") as [->|_]; [discriminate|].
  destruct (Ascii.eqb_spec a "+") as [->|_]; [discriminate|]. reflexivity.
Qed.

Lemma digit_fuel_enough (n : Z) : 0 < n → n < 2 ^ Z.of_nat (digit_fuel n).
Proof.
  intros Hn. unfold digit_fuel.
  rewrite Nat2Z.inj_succ, Z2Nat.id by apply Z.log2_nonneg.
  apply Z.log2_spec. lia.
Qed.

(** [int(str(z)) == z]. *)
Lemma int_of_str_of_int (z : Z) : int_of_str (str_of_int z) = Ok z.
Proof.
  unfold str_of_int. destruct (Z.ltb_spec z 0) as [Hneg|Hpos].
  - set (ds := digits 10 dec_digit (digit_fuel (- z)) (- z) "").
    assert (Hds : str_forallb is_digit ds = true)
      by (apply digits_all_digits; [lia | done]).
    assert (Hne : ds ≠ "") by (apply digits_nonempty; right; unfold digit_fuel; lia).
    unfold int_of_str.
    assert (strip (String "-" ds) = String "-" ds) as ->.
    { unfold strip. cbn [lstrip]. change (is_space "-") with false. cbv iota.
      apply rstrip_no_space. simpl. eapply str_forallb_impl; [|exact Hds].
      intros b Hb. by rewrite (is_digit_not_space _ Hb). }
    change (Ascii.eqb "-" "-") with true. cbv iota.
    unfold ds. rewrite parse_digits_digits
      by (split; [lia | apply digit_fuel_enough; lia]).
    simpl. f_equal. lia.
  - destruct (Z.eq_dec z 0) as [->|Hz]; [reflexivity|].
    set (ds := digits 10 dec_digit (digit_fuel z) z "").
    assert (Hds : str_forallb is_digit ds = true)
      by (apply digits_all_digits; [lia | done]).
    assert (Hne : ds ≠ "") by (apply digits_nonempty; right; unfold digit_fuel; lia).
    rewrite (proj1 (int_of_str_digits ds Hds Hne)). unfold ds.
    rewrite parse_digits_digits
      by (split; [lia | apply digit_fuel_enough; lia]).
    reflexivity.
Qed.

Lemma drop_last_app (s : string) (a : ascii) :
  drop_last (s +:+ String a "") = s.
Proof.
  induction s as [|b s IH]; [done|].
  change (String b s +:+ String a "") with (String b (s +:+ String a "")).
  cbn [drop_last]. rewrite IH. by destruct s.
Qed.

(** The key written for a register splits into its bank abbreviation and
    the decimal text of its offset. *)
Lemma split_key_Register_str (r : Register) :
  split_key (Register_str r) = Ok (abbrev (bank r), str_of_int (offset r)).
Proof.
  destruct r as [b z]. unfold Register_str, split_key.
  cbn [bank offset]. set (t := str_of_int z +:+ ")").
  destruct b; cbn [abbrev].
  - change ("HR" +:+ "(" +:+ t) with (String "H" (String "R" (String "(" t))).
    cbn -[drop_last]. unfold t. by rewrite drop_last_app.
  - change ("IR" +:+ "(" +:+ t) with (String "I" (String "R" (String "(" t))).
    cbn -[drop_last]. unfold t. by rewrite drop_last_app.
Qed.

Lemma lookup_abbrev (b : Bank) : lookup (abbrev b) = Ok (mk_Register b).
Proof. by destruct b. Qed.

(** The textual form determines the register. *)
Lemma Register_str_inj (r1 r2 : Register) :
  Register_str r1 = Register_str r2 → r1 = r2.
Proof.
  intros Heq.
  pose proof (split_key_Register_str r1) as H1.
  rewrite Heq, split_key_Register_str in H1.
  injection H1 as Hb Hz.
  assert (Hoff : offset r1 = offset r2).
  { pose proof (int_of_str_of_int (offset r1)) as Hi.
    rewrite <- Hz, int_of_str_of_int in Hi. congruence. }
  destruct r1 as [b1 z1], r2 as [b2 z2]; simpl in *. subst.
  by destruct b1, b2.
Qed.

End Keys.

(* ===================================================================== *)
(** * Properties of the serialization *)
(* ===================================================================== *)

Section Json.

Implicit Types (c ret : RegisterCache) (r : Register) (v : pyval).

(** ** The dictionary built from the members of an object *)

Lemma dict_of_pairs_foldl (l : json_object) :
  dict_of_pairs l = foldl dict_step [] l.
Proof. reflexivity. Qed.

Lemma dict_set_fresh (d : json_object) (k : string) v :
  k ∉ d.*1 → dict_set d k v = d ++ [(k, v)].
Proof.
  induction d as [|[k' v'] d IH]; [done|]. cbn [fmap list_fmap fst].
  intros Hk. apply not_elem_of_cons in Hk as [Hne Hk]. cbn [dict_set].
  rewrite bool_decide_eq_false_2 by congruence. by rewrite (IH Hk).
Qed.

Lemma foldl_dict_step_NoDup (l d : json_object) :
  NoDup (d ++ l).*1 → foldl dict_step d l = d ++ l.
Proof.
  revert d. induction l as [|[k v] l IH]; intros d Hnd.
  - by rewrite app_nil_r.
  - cbn [foldl]. unfold dict_step at 2. cbn [fst snd].
    assert (Hk : k ∉ d.*1).
    { rewrite fmap_app in Hnd. apply NoDup_app in Hnd as (_ & Hdis & _).
      intros Hin. apply (Hdis k Hin). cbn. left. }
    rewrite (dict_set_fresh d k v Hk).
    rewrite IH; rewrite <- app_assoc; done.
Qed.

(** With no key repeated the dictionary is the list of the members. *)
Lemma dict_of_pairs_NoDup (l : json_object) :
  NoDup l.*1 → dict_of_pairs l = l.
Proof. intros H. by apply (foldl_dict_step_NoDup l []). Qed.

Lemma elem_of_dict_set (d : json_object) (k : string) v x :
  x ∈ dict_set d k v → x ∈ d ∨ x = (k, v).
Proof.
  induction d as [|[k' v'] d IH]; cbn [dict_set].
  - intros ->%list_elem_of_singleton. by right.
  - case_bool_decide as Hk.
    + intros [->|Hx]%elem_of_cons; [right; by subst | left; by right].
    + intros [->|Hx]%elem_of_cons; [left; left|].
      destruct (IH Hx) as [?|?]; [left; by right | by right].
Qed.

Lemma elem_of_foldl_dict_step (l d : json_object) x :
  x ∈ foldl dict_step d l → x ∈ d ∨ x ∈ l.
Proof.
  revert d. induction l as [|[k v] l IH]; intros d; cbn [foldl]; [by left|].
  intros [Hx|Hx]%IH; [|right; by right].
  apply elem_of_dict_set in Hx as [?| ->]; [by left | right; left].
Qed.

(** Every entry of the dictionary is a member of the object. *)
Lemma elem_of_dict_of_pairs (l : json_object) x : x ∈ dict_of_pairs l → x ∈ l.
Proof.
  intros [Hx|Hx]%elem_of_foldl_dict_step; [|done]. by apply elem_of_nil in Hx.
Qed.

Lemma dict_set_keys (d : json_object) (k : string) v (k' : string) :
  k' ∈ (dict_set d k v).*1 ↔ k' = k ∨ k' ∈ d.*1.
Proof.
  induction d as [|[k0 v0] d IH]; cbn [dict_set].
  - cbn. rewrite list_elem_of_singleton, elem_of_nil. tauto.
  - case_bool_decide as Hk; cbn [fmap list_fmap fst].
    + subst. rewrite !elem_of_cons. tauto.
    + rewrite !elem_of_cons, IH. tauto.
Qed.

Lemma foldl_dict_step_keys (l d : json_object) (k' : string) :
  k' ∈ (foldl dict_step d l).*1 ↔ k' ∈ d.*1 ∨ k' ∈ l.*1.
Proof.
  revert d. induction l as [|[k v] l IH]; intros d; cbn [foldl].
  - cbn. rewrite elem_of_nil. tauto.
  - rewrite IH. unfold dict_step. cbn [fst snd fmap list_fmap].
    rewrite dict_set_keys, elem_of_cons. tauto.
Qed.

(** The dictionary has the keys of the object. *)
Lemma dict_of_pairs_keys (l : json_object) (k : string) :
  k ∈ (dict_of_pairs l).*1 ↔ k ∈ l.*1.
Proof.
  rewrite dict_of_pairs_foldl, foldl_dict_step_keys. cbn.
  rewrite elem_of_nil. tauto.
Qed.

Lemma foldl_dict_step_head (l d : json_object) (k0 : string) v0 :
  ∃ v0' d', foldl dict_step ((k0, v0) :: d) l = (k0, v0') :: d'.
Proof.
  revert d v0. induction l as [|[k v] l IH]; intros d v0; cbn [foldl]; [eauto|].
  unfold dict_step at 2. cbn [fst snd dict_set]. case_bool_decide; apply IH.
Qed.

(** The first key of the object is the first key of the dictionary. *)
Lemma dict_of_pairs_head (k : string) v (l : json_object) :
  ∃ v' d', dict_of_pairs ((k, v) :: l) = (k, v') :: d'.
Proof. apply (foldl_dict_step_head l [] k v). Qed.

Lemma filter_dict_set (p : string → bool) (d : json_object) (k : string) v :
  List.filter (λ kv, p kv.1) (dict_set d k v)
  = if p k then dict_set (List.filter (λ kv, p kv.1) d) k v
    else List.filter (λ kv, p kv.1) d.
Proof.
  induction d as [|[k' v'] d IH]; cbn [dict_set List.filter fst].
  - by destruct (p k).
  - case_bool_decide as Hk; cbn [List.filter fst].
    + subst k'. destruct (p k); [|done]. cbn [dict_set].
      by rewrite bool_decide_eq_true_2.
    + rewrite IH. destruct (p k'), (p k); try done. cbn [dict_set].
      by rewrite bool_decide_eq_false_2.
Qed.

Lemma filter_foldl_dict_step (p : string → bool) (l d : json_object) :
  List.filter (λ kv, p kv.1) (foldl dict_step d l)
  = foldl dict_step (List.filter (λ kv, p kv.1) d)
      (List.filter (λ kv, p kv.1) l).
Proof.
  revert d. induction l as [|[k v] l IH]; intros d; [done|].
  cbn [foldl List.filter fst]. rewrite IH. unfold dict_step at 2.
  cbn [fst snd]. rewrite filter_dict_set. by destruct (p k).
Qed.

(** Leaving out the members of some keys commutes with building the
    dictionary. *)
Lemma filter_dict_of_pairs (p : string → bool) (l : json_object) :
  List.filter (λ kv, p kv.1) (dict_of_pairs l)
  = dict_of_pairs (List.filter (λ kv, p kv.1) l).
Proof. apply (filter_foldl_dict_step p l []). Qed.

Lemma json_of_items_keys_NoDup (items : list (Register * pyval)) :
  NoDup items.*1 → NoDup (json_of_items items).*1.
Proof.
  intros Hnd. unfold json_of_items. rewrite <- list_fmap_compose.
  change (fst ∘ (λ kv : Register * pyval, (Register_str kv.1, kv.2)))
    with (Register_str ∘ (fst : Register * pyval → Register)).
  rewrite list_fmap_compose.
  apply NoDup_fmap_2_strong; [|done]. intros r1 r2 _ _. apply Register_str_inj.
Qed.

(** ** The hook *)

Lemma from_json_loop (data : json_object) :
  from_json data = register_object_hook_loop (dict_of_pairs data) ∅.
Proof.
  unfold from_json, register_object_hook.
  by destruct (register_object_hook_loop (dict_of_pairs data) ∅).
Qed.

(** The loop, one entry at a time. *)
Lemma hook_loop_cons (k : string) v (rest : json_object) ret :
  register_object_hook_loop ((k, v) :: rest) ret
  = match hook_entry k with
    | Ok (Some r) => register_object_hook_loop rest (<[r := v]> ret)
    | Ok None => register_object_hook_loop rest ret
    | Raise e => Raise e
    end.
Proof.
  cbn [register_object_hook_loop]. unfold hook_entry.
  destruct (split_key k) as [p|e]; [|reflexivity]. cbn.
  destruct (lookup p.1) as [ctor|e]; cbn; [|by destruct e].
  destruct (int_of_str p.2) as [n|e]; cbn; [reflexivity | by destruct e].
Qed.

Lemma hook_entry_Register_str r : hook_entry (Register_str r) = Ok (Some r).
Proof.
  unfold hook_entry. rewrite split_key_Register_str. cbn.
  rewrite lookup_abbrev. cbn. rewrite int_of_str_of_int. cbn.
  by destruct r.
Qed.

(** Deserializing the members written for [items] stores the items one
    after the other. *)
Lemma hook_loop_json_of_items (items : list (Register * pyval)) ret :
  register_object_hook_loop (json_of_items items) ret
  = Ok (foldl (λ m kv, <[kv.1 := kv.2]> m) ret items).
Proof.
  revert ret. induction items as [|[r v] items IH]; intros ret; [done|].
  cbn [json_of_items fmap list_fmap foldl].
  rewrite hook_loop_cons, hook_entry_Register_str. apply IH.
Qed.

Lemma foldl_insert_list_to_map (items : list (Register * pyval)) ret :
  NoDup items.*1 →
  foldl (λ m kv, <[kv.1 := kv.2]> m) ret items = list_to_map items ∪ ret.
Proof.
  revert ret. induction items as [|[r v] items IH]; intros ret Hnd.
  - symmetry. apply (left_id_L ∅ (∪)).
  - cbn in Hnd. apply NoDup_cons in Hnd as [Hr Hnd].
    cbn [foldl list_to_map foldr fst snd]. rewrite IH by done.
    rewrite <- insert_union_l. symmetry. apply insert_union_r.
    by apply not_elem_of_list_to_map_1.
Qed.

(** What [hook_entry] can raise. *)
Lemma split_key_raises (k : string) (e : exn) :
  split_key k = Raise e → e = ValueError.
Proof.
  unfold split_key. intros H.
  destruct (0 <? find "(" k).
  { destruct (split1 "(" k) as [|? [|? [|? ?]]]; congruence. }
  destruct (0 <? find ":" k); [|congruence].
  destruct (split1 ":" k) as [|? [|? [|? ?]]]; congruence.
Qed.

Lemma lookup_cases (reg : string) :
  (reg = "HR" ∧ lookup reg = Ok HR) ∨ (reg = "IR" ∧ lookup reg = Ok IR)
  ∨ (reg ≠ "HR" ∧ reg ≠ "IR" ∧ lookup reg = Raise (KeyError reg)).
Proof.
  unfold lookup. repeat case_bool_decide; subst; auto.
Qed.

Lemma int_of_str_raises (s : string) (e : exn) :
  int_of_str s = Raise e → e = ValueError.
Proof.
  unfold int_of_str. intros H.
  destruct (match strip s with String _ _ => _ | EmptyString => _ end);
    congruence.
Qed.

Lemma hook_entry_raises (k : string) (e : exn) :
  hook_entry k = Raise e → MalformedKey e.
Proof.
  unfold hook_entry. destruct (split_key k) as [p|e0] eqn:Hk; cbn.
  - destruct (lookup_cases p.1) as [[_ ->]|[[_ ->]|(_ & _ & ->)]]; cbn.
    + destruct (int_of_str p.2) as [n|e0] eqn:Hi; cbn; [done|].
      apply int_of_str_raises in Hi as ->. done.
    + destruct (int_of_str p.2) as [n|e0] eqn:Hi; cbn; [done|].
      apply int_of_str_raises in Hi as ->. done.
    + intros [= <-]. right. eauto.
  - apply split_key_raises in Hk as ->. intros [= <-]. by left.
Qed.

Lemma hook_loop_raises (items : json_object) ret (e : exn) :
  register_object_hook_loop items ret = Raise e → MalformedKey e.
Proof.
  revert ret. induction items as [|[k v] items IH]; intros ret; [done|].
  rewrite hook_loop_cons.
  destruct (hook_entry k) as [[r|]|e0] eqn:Hk; eauto.
  intros [= <-]. by eapply hook_entry_raises.
Qed.

(** An entry whose bank abbreviation is not in the table. *)
Lemma hook_entry_unknown_bank (k reg idx : string) :
  split_key k = Ok (reg, idx) → reg ≠ "HR" → reg ≠ "IR" →
  hook_entry k = Raise (KeyError reg).
Proof.
  intros Hk H1 H2. unfold hook_entry. rewrite Hk. cbn.
  destruct (lookup_cases reg) as [[? _]|[[? _]|(_ & _ & ->)]]; done.
Qed.

(** An entry of a known bank whose index text is not an integer. *)
Lemma hook_entry_bad_offset (k reg idx : string) :
  split_key k = Ok (reg, idx) → reg = "HR" ∨ reg = "IR" →
  int_of_str idx = Raise ValueError →
  hook_entry k = Ok None.
Proof.
  intros Hk Hreg Hi. unfold hook_entry. rewrite Hk. cbn.
  destruct Hreg as [-> | ->]; cbn; by rewrite Hi.
Qed.

Lemma hook_loop_raise_anywhere (pre post : json_object) (k : string) v ret e0 :
  hook_entry k = Raise e0 →
  ∃ e, register_object_hook_loop (pre ++ (k, v) :: post) ret = Raise e.
Proof.
  intros Hk. revert ret.
  induction pre as [|[k' v'] pre IH]; intros ret; cbn [app].
  - rewrite hook_loop_cons, Hk. eauto.
  - rewrite hook_loop_cons. destruct (hook_entry k') as [[r|]|e]; eauto.
Qed.

Lemma hook_loop_drop_anywhere (pre post : json_object) (k : string) v ret :
  hook_entry k = Ok None →
  register_object_hook_loop (pre ++ (k, v) :: post) ret
  = register_object_hook_loop (pre ++ post) ret.
Proof.
  intros Hk. revert ret.
  induction pre as [|[k' v'] pre IH]; intros ret; cbn [app].
  - by rewrite hook_loop_cons, Hk.
  - rewrite !hook_loop_cons. destruct (hook_entry k') as [[r|]|e]; eauto.
Qed.

Lemma hook_loop_raise_elem (l : json_object) (k : string) v ret e0 :
  (k, v) ∈ l → hook_entry k = Raise e0 →
  ∃ e, register_object_hook_loop l ret = Raise e.
Proof.
  intros (pre & post & ->)%list_elem_of_split Hk.
  by eapply hook_loop_raise_anywhere.
Qed.

(** A member whose key raises makes the parse fail, wherever it is. *)
Lemma from_json_raise_key (data : json_object) (k : string) e0 :
  k ∈ data.*1 → hook_entry k = Raise e0 →
  ∃ e, from_json data = Raise e ∧ MalformedKey e.
Proof.
  intros Hin Hk. apply dict_of_pairs_keys in Hin.
  apply list_elem_of_fmap in Hin as ([k' v'] & -> & Hin). cbn in Hk.
  rewrite from_json_loop.
  destruct (hook_loop_raise_elem _ _ _ ∅ _ Hin Hk) as [e He].
  exists e. split; [done|]. by eapply hook_loop_raises.
Qed.

(** A first member whose key raises fails the parse with that exception. *)
Lemma from_json_raise_first (post : json_object) (k : string) v e0 :
  hook_entry k = Raise e0 → from_json ((k, v) :: post) = Raise e0.
Proof.
  intros Hk. rewrite from_json_loop.
  destruct (dict_of_pairs_head k v post) as (v' & d' & ->).
  by rewrite hook_loop_cons, Hk.
Qed.

(** The discarded members can be left out before the loop runs. *)
Lemma hook_loop_filter_kept (l : json_object) ret :
  register_object_hook_loop (List.filter (λ kv, key_kept kv.1) l) ret
  = register_object_hook_loop l ret.
Proof.
  revert ret. induction l as [|[k v] l IH]; intros ret; [done|].
  cbn [List.filter fst]. unfold key_kept at 1.
  destruct (hook_entry k) as [[r|]|e] eqn:Hk.
  - by rewrite !hook_loop_cons, Hk.
  - by rewrite hook_loop_cons, Hk.
  - by rewrite !hook_loop_cons, Hk.
Qed.

Lemma from_json_filter_kept (data : json_object) :
  from_json (List.filter (λ kv, key_kept kv.1) data) = from_json data.
Proof.
  rewrite !from_json_loop, <- filter_dict_of_pairs.
  apply hook_loop_filter_kept.
Qed.

(** A discarded member can be left out of the object. *)
Lemma from_json_drop_anywhere (pre post : json_object) (k : string) v :
  hook_entry k = Ok None →
  from_json (pre ++ (k, v) :: post) = from_json (pre ++ post).
Proof.
  intros Hk. rewrite <- (from_json_filter_kept (pre ++ (k, v) :: post)).
  rewrite <- (from_json_filter_kept (pre ++ post)).
  rewrite !List.filter_app. cbn [List.filter fst].
  unfold key_kept at 2. by rewrite Hk.
Qed.

End Json.

(** C3: deserializing the serialization of a cache gives back that cache,
    whatever the order in which the entries were written. *)
Theorem from_json_json_roundtrip (c : RegisterCache)
    (items : list (Register * pyval)) :
  items ≡ₚ map_to_list c →
  from_json (json_of_items items) = Ok c ∧ from_json (json c) = Ok c.
Proof.
  assert (Hany : ∀ l, l ≡ₚ map_to_list c → from_json (json_of_items l) = Ok c).
  { intros l Hl.
    assert (Hnd : NoDup l.*1).
    { rewrite Hl. apply NoDup_fst_map_to_list. }
    rewrite from_json_loop.
    rewrite dict_of_pairs_NoDup by by apply json_of_items_keys_NoDup.
    rewrite hook_loop_json_of_items. f_equal.
    rewrite foldl_insert_list_to_map by done.
    rewrite (right_id_L ∅ (∪)).
    rewrite (list_to_map_proper l (map_to_list c)) by done.
    apply list_to_map_to_list. }
  intros Hitems. split; [by apply Hany | by apply Hany].
Qed.

Lemma from_json_json_roundtrip_witness :
  from_json (json_of_items [(IR 2, PInt 7); (HR 13, PInt 16706)])
    = Ok (<[HR 13 := PInt 16706]> (<[IR 2 := PInt 7]> ∅))
  ∧ from_json (json (<[HR 13 := PInt 16706]> (<[IR 2 := PInt 7]> ∅)))
    = Ok (<[HR 13 := PInt 16706]> (<[IR 2 := PInt 7]> ∅)).
Proof.
  apply (from_json_json_roundtrip
           (<[HR 13 := PInt 16706]> (<[IR 2 := PInt 7]> ∅))
           [(IR 2, PInt 7); (HR 13, PInt 16706)]).
  vm_compute. apply perm_swap.
Defined.

(** C6: a key whose bank abbreviation is not [HR] or [IR], such as [XX(5)],
    makes the whole parse fail with the error of the bank table, while a key
    of a known bank whose index is not an integer, such as [HR(abc)], is
    dropped and the other entries are parsed as if it were not there. *)
Theorem from_json_unknown_bank_fails_bad_offset_dropped
    (pre post : json_object) (v : pyval) :
  (∀ k reg idx, split_key k = Ok (reg, idx) → reg ≠ "HR" → reg ≠ "IR" →
     from_json ((k, v) :: post) = Raise (KeyError reg)
     ∧ ∃ e, from_json (pre ++ (k, v) :: post) = Raise e ∧ MalformedKey e)
  ∧ (∀ k reg idx, split_key k = Ok (reg, idx) → reg = "HR" ∨ reg = "IR" →
     int_of_str idx = Raise ValueError →
     from_json (pre ++ (k, v) :: post) = from_json (pre ++ post))
  ∧ from_json (("XX(5)", v) :: post) = Raise (KeyError "XX")
  ∧ (∃ e, from_json (pre ++ ("XX(5)", v) :: post) = Raise e ∧ MalformedKey e)
  ∧ from_json (pre ++ ("HR(abc)", v) :: post) = from_json (pre ++ post).
Proof.
  assert (Hbank : ∀ k reg idx,
    split_key k = Ok (reg, idx) → reg ≠ "HR" → reg ≠ "IR" →
    from_json ((k, v) :: post) = Raise (KeyError reg)
    ∧ ∃ e, from_json (pre ++ (k, v) :: post) = Raise e ∧ MalformedKey e).
  { intros k reg idx Hk H1 H2.
    pose proof (hook_entry_unknown_bank k reg idx Hk H1 H2) as He.
    split; [by apply from_json_raise_first|].
    eapply from_json_raise_key; [|exact He].
    rewrite fmap_app. apply elem_of_app. right. left. }
  assert (Hoff : ∀ k reg idx,
    split_key k = Ok (reg, idx) → reg = "HR" ∨ reg = "IR" →
    int_of_str idx = Raise ValueError →
    from_json (pre ++ (k, v) :: post) = from_json (pre ++ post)).
  { intros k reg idx Hk Hreg Hi.
    apply from_json_drop_anywhere. by eapply hook_entry_bad_offset. }
  split; [exact Hbank|]. split; [exact Hoff|].
  split; [|split].
  - by apply (Hbank "XX(5)" "XX" "5").
  - by apply (Hbank "XX(5)" "XX" "5").
  - by apply (Hoff "HR(abc)" "HR" "abc"); [|left|].
Qed.

Lemma from_json_unknown_bank_fails_bad_offset_dropped_witness :
  (from_json (("ZZ:7", PInt 2) :: [("HR(3)", PInt 3)]) = Raise (KeyError "ZZ")
   ∧ ∃ e, from_json ([("IR(1)", PInt 1)] ++ ("ZZ:7", PInt 2) :: [("HR(3)", PInt 3)])
          = Raise e ∧ MalformedKey e)
  ∧ from_json ([("IR(1)", PInt 1)] ++ ("HR(1.5)", PInt 2) :: [("HR(3)", PInt 3)])
    = from_json ([("IR(1)", PInt 1)] ++ [("HR(3)", PInt 3)]).
Proof.
  pose proof (from_json_unknown_bank_fails_bad_offset_dropped
                [("IR(1)", PInt 1)] [("HR(3)", PInt 3)] (PInt 2))
    as (Hbank & Hoff & _).
  split.
  - apply (Hbank "ZZ:7" "ZZ" "7"); [reflexivity | discriminate | discriminate].
  - apply (Hoff "HR(1.5)" "HR" "1.5"); [reflexivity | by left | reflexivity].
Defined.

(* ===================================================================== *)
(** * Missing registers *)
(* ===================================================================== *)

Section Missing.

Implicit Types (c : RegisterCache) (r : Register) (v : pyval).

Lemma elem_of_json c (k : string) v :
  (k, v) ∈ json c ↔ ∃ r, k = Register_str r ∧ c !! r = Some v.
Proof.
  unfold json, json_of_items. rewrite list_elem_of_fmap. split.
  - intros ([r v'] & [= -> ->] & Hin). exists r. split; [done|].
    by apply elem_of_map_to_list.
  - intros (r & -> & Hr). exists (r, v). split; [done|].
    by apply elem_of_map_to_list.
Qed.

Lemma contains_true c r : contains c r = true ↔ is_Some (c !! r).
Proof. unfold contains. by rewrite bool_decide_eq_true. Qed.

Lemma contains_false c r : contains c r = false ↔ c !! r = None.
Proof.
  unfold contains. rewrite bool_decide_eq_false.
  by rewrite eq_None_not_Some.
Qed.

End Missing.

(** C9: looking up a register that is not in the cache with [self[r]] stores
    [None] under it.  Afterwards the register is in the cache, [get] with a
    default returns [None] instead of the default, the serialization has an
    entry for it, and every helper that looked it up leaves it behind. *)
Theorem getitem_absent_inserts_none (c : RegisterCache) (r : Register) :
  c !! r = None →
  contains c r = false
  ∧ getitem r c = (Ok PNone, <[r := PNone]> c)
  ∧ contains (<[r := PNone]> c) r = true
  ∧ get r (PInt 1) c = (Ok (PInt 1), c)
  ∧ get r (PInt 1) (<[r := PNone]> c) = (Ok PNone, <[r := PNone]> c)
  ∧ getitem r (<[r := PNone]> c) = (Ok PNone, <[r := PNone]> c)
  ∧ (∀ v, (Register_str r, v) ∉ json c)
  ∧ (Register_str r, PNone) ∈ json (<[r := PNone]> c)
  ∧ to_string [r] c = (Raise AttributeError, <[r := PNone]> c)
  ∧ to_hex_string [r] c = (Raise TypeError, <[r := PNone]> c)
  ∧ to_duint8 [r] c = (Raise TypeError, <[r := PNone]> c)
  ∧ (∀ lo, to_uint32 r lo c = (Raise TypeError, <[r := PNone]> c))
  ∧ (∀ m d h min s,
       to_datetime r m d h min s c = (Raise ValueError, <[r := PNone]> c)).
Proof.
  intros Hr.
  assert (Hget : getitem r c = (Ok PNone, <[r := PNone]> c))
    by by apply getitem_absent.
  repeat split.
  - by apply contains_false.
  - exact Hget.
  - apply contains_true. rewrite lookup_insert_eq. eauto.
  - unfold get. by rewrite Hr.
  - unfold get. by rewrite lookup_insert_eq.
  - apply getitem_present, lookup_insert_eq.
  - intros v (r' & Heq & Hr')%elem_of_json.
    apply Register_str_inj in Heq as <-. congruence.
  - apply elem_of_json. exists r. by rewrite lookup_insert_eq.
  - unfold to_string. run. by rewrite Hget.
  - unfold to_hex_string. run. by rewrite Hget.
  - unfold to_duint8. run. by rewrite Hget.
  - intros lo. by apply to_uint32_high_absent.
  - intros m d h min s. unfold to_datetime, to_datetime_try. run.
    by rewrite Hget.
Qed.

Lemma getitem_absent_inserts_none_witness :
  getitem (HR 13) ∅ = (Ok PNone, <[HR 13 := PNone]> ∅)
  ∧ to_string [HR 13] ∅ = (Raise AttributeError, <[HR 13 := PNone]> ∅)
  ∧ get (HR 13) (PInt 1) (<[HR 13 := PNone]> ∅)
    = (Ok PNone, <[HR 13 := PNone]> ∅).
Proof.
  pose proof (getitem_absent_inserts_none ∅ (HR 13) eq_refl) as H.
  split; [apply H|]. split; apply H.
Defined.

(** C2 as stated fails: with the high register missing from the empty
    cache, [to_uint32] does not raise an error naming that register. *)
Lemma to_uint32_missing_register_counterexample :
  ¬ (∀ (c : RegisterCache) (hi lo : Register),
       c !! hi = None →
       ∃ c', to_uint32 hi lo c = (Raise (MissingRegister hi), c')).
Proof.
  intros H. destruct (H ∅ (HR 0) (HR 1) (lookup_empty _)) as [c' Hc'].
  vm_compute in Hc'. discriminate.
Qed.

(** C2, amended: [get] on the empty cache returns [None], which is not the
    word [0]; and a helper other than [to_datetime] that is given a register
    missing from the cache fails, with the [TypeError], [AttributeError] or
    [OverflowError] Python raises on the value at hand, never with an error
    naming the register. *)
Theorem absent_register_fails_unnamed (c : RegisterCache) (r : Register) :
  c !! r = None →
  (∀ r0, get r0 PNone ∅ = (Ok PNone, ∅) ∧ PNone ≠ PInt 0)
  ∧ (∀ rs, r ∈ rs → fails_unnamed (to_string rs c))
  ∧ (∀ rs, r ∈ rs → fails_unnamed (to_hex_string rs c))
  ∧ (∀ rs, r ∈ rs → fails_unnamed (to_duint8 rs c))
  ∧ (∀ lo, to_uint32 r lo c = (Raise TypeError, <[r := PNone]> c))
  ∧ (∀ hi, ∃ c', to_uint32 hi r c = (Raise TypeError, c'))
  ∧ (∀ A (x : result A * RegisterCache) e c' r',
       fails_unnamed x → x = (Raise e, c') → e ≠ MissingRegister r').
Proof.
  intros Hr. repeat split.
  - discriminate.
  - intros rs Hin. by eapply to_string_absent_fails.
  - intros rs Hin. by eapply to_hex_string_absent_fails.
  - intros rs Hin. by eapply to_duint8_absent_fails.
  - intros lo. by apply to_uint32_high_absent.
  - intros hi. by apply to_uint32_low_absent.
  - intros A x e c' r' Hx Heq. by eapply fails_unnamed_not_missing.
Qed.

Lemma absent_register_fails_unnamed_witness :
  fails_unnamed (to_string [HR 13; HR 14] (<[HR 13 := PInt 16706]> ∅))
  ∧ to_uint32 (HR 14) (HR 13) (<[HR 13 := PInt 16706]> ∅)
    = (Raise TypeError, <[HR 14 := PNone]> (<[HR 13 := PInt 16706]> ∅)).
Proof.
  pose proof (absent_register_fails_unnamed
                (<[HR 13 := PInt 16706]> ∅) (HR 14) eq_refl)
    as (_ & Hs & _ & _ & Hu & _).
  split; [apply Hs; set_solver | apply Hu].
Defined.

(* ===================================================================== *)
(** * [to_hex_string] *)
(* ===================================================================== *)

Section Hex.

Implicit Types (c : RegisterCache) (r : Register).

Lemma zero_pad_nonempty (n : nat) (s : string) : s ≠ "" → zero_pad n s ≠ "".
Proof. by destruct n. Qed.

(** A formatted word is never the empty string. *)
Lemma format_04x_nonempty (z : Z) : format_04x z ≠ "".
Proof.
  unfold format_04x. destruct (z <? 0); [done|].
  apply zero_pad_nonempty, digits_nonempty. right. unfold digit_fuel. lia.
Qed.

Lemma string_eqb_empty (s : string) : s ≠ "" → String.eqb s "" = false.
Proof. by destruct s. Qed.

Lemma append_assoc (s t u : string) : (s +:+ t) +:+ u = s +:+ (t +:+ u).
Proof.
  induction s as [|a s IH]; [done|].
  change (String a ((s +:+ t) +:+ u) = String a (s +:+ (t +:+ u))).
  by rewrite IH.
Qed.

Lemma mapM_format_present c (rs : list Register) (vs : list Z) :
  Forall2 (λ r z, c !! r = Some (PInt z)) rs vs →
  mapM (λ r, v ← getitem r; lift (val_format_04x v)) rs c
  = (Ok (format_04x <$> vs), c).
Proof.
  induction 1 as [|r z rs vs Hr _ IH]; [done|].
  cbn [mapM]. run. rewrite (getitem_present _ _ _ Hr). cbn.
  unfold mbind, M_bind, mret, M_ret, lift in IH. by rewrite IH.
Qed.

Lemma foldM_format_present c (rs : list Register) (vs : list Z) (acc : string) :
  Forall2 (λ r z, c !! r = Some (PInt z)) rs vs →
  foldM (λ ret r, v ← getitem r; s ← lift (val_format_04x v);
                   mret (ret +:+ s)) acc rs c
  = (Ok (acc +:+ str_concat (format_04x <$> vs)), c).
Proof.
  intros H. revert acc. induction H as [|r z rs vs Hr _ IH]; intros acc.
  - cbn. unfold mret, M_ret. f_equal. f_equal.
    induction acc as [|a acc IHa]; [done|].
    change (String a acc = String a (acc +:+ "")). by rewrite <- IHa.
  - cbn [foldM]. run. rewrite (getitem_present _ _ _ Hr). cbn.
    unfold mbind, M_bind, mret, M_ret, lift in IH. rewrite IH.
    by rewrite append_assoc.
Qed.

End Hex.

(** Over one register holding the raw word [0] the result of
    [to_hex_string] is not the empty string. *)
Lemma to_hex_string_zero_counterexample :
  (to_hex_string [HR 0] (<[HR 0 := PInt 0]> ∅)).1 ≠ Ok "".
Proof. vm_compute. discriminate. Qed.

(** C5: [to_hex_string] does not return the empty string for a register
    holding the raw word [0]: its test [all(values)] is made on the words
    after formatting, and a formatted word is never empty, so the test never
    fails.  Over one register holding [0] the result is [0000], over one
    holding [255] it is [00FF], and whenever all the registers are stored
    the result is the concatenation of their four-digit formats with the
    characters that are not alphanumeric removed, in upper case, the cache
    being left as it was. *)
Theorem to_hex_string_stored_words (c : RegisterCache) (rs : list Register)
    (vs : list Z) :
  Forall2 (λ r z, c !! r = Some (PInt z)) rs vs →
  to_hex_string rs c
    = (Ok (upper (str_filter isalnum (str_concat (format_04x <$> vs)))), c)
  ∧ (∀ z, format_04x z ≠ "")
  ∧ (vs = [0] → to_hex_string rs c = (Ok "0000", c))
  ∧ (vs = [255] → to_hex_string rs c = (Ok "00FF", c)).
Proof.
  intros H.
  assert (Hrun : to_hex_string rs c
    = (Ok (upper (str_filter isalnum (str_concat (format_04x <$> vs)))), c)).
  { unfold to_hex_string.
    rewrite (bind_ok _ _ _ _ _ (mapM_format_present c rs vs H)).
    assert (forallb (λ s, negb (String.eqb s "")) (format_04x <$> vs) = true)
      as ->.
    { apply forallb_forall. intros s [z [<- _]]%in_map_iff.
      by rewrite string_eqb_empty by apply format_04x_nonempty. }
    rewrite (bind_ok _ _ _ _ _ (foldM_format_present c rs vs "" H)).
    reflexivity. }
  split; [exact Hrun|]. split; [apply format_04x_nonempty|].
  split; intros ->; exact Hrun.
Qed.

Lemma to_hex_string_stored_words_witness :
  to_hex_string [HR 0] (<[HR 0 := PInt 0]> ∅) = (Ok "0000", <[HR 0 := PInt 0]> ∅)
  ∧ to_hex_string [HR 21] (<[HR 21 := PInt 255]> ∅)
    = (Ok "00FF", <[HR 21 := PInt 255]> ∅).
Proof.
  split.
  - refine (proj1 (proj2 (proj2 (to_hex_string_stored_words
              (<[HR 0 := PInt 0]> ∅) [HR 0] [0] _))) eq_refl).
    repeat constructor.
  - refine (proj2 (proj2 (proj2 (to_hex_string_stored_words
              (<[HR 21 := PInt 255]> ∅) [HR 21] [255] _))) eq_refl).
    repeat constructor.
Defined.

(* ===================================================================== *)
(** * The register tables *)
(* ===================================================================== *)

Section Tables.

Lemma is_half_sound (want : Type_) (delta : Z) (e : RegisterBank)
    (o : option RegisterBank) :
  is_half want delta e o = true →
  ∃ e', o = Some e' ∧ type e' = want ∧ value e' = value e + delta
        ∧ scaling e' = scaling e.
Proof.
  destruct o as [e'|]; [|done]. unfold is_half.
  intros [[Ht Hv]%andb_true_iff Hs]%andb_true_iff.
  apply bool_decide_eq_true in Ht, Hs. apply Z.eqb_eq in Hv. eauto.
Qed.

Lemma dword_check_sound (tbl : list RegisterBank) (i : nat) (e : RegisterBank) :
  dword_check tbl i = true → tbl !! i = Some e →
  value e = Z.of_nat i ∧ dword_paired_at tbl i e.
Proof.
  unfold dword_check. intros Hc Hi. rewrite Hi in Hc.
  apply andb_true_iff in Hc as [[Hv Hhi]%andb_true_iff Hlo].
  split; [by apply Z.eqb_eq|]. split.
  - intros Ht. rewrite bool_decide_eq_true_2 in Hhi by done.
    by apply is_half_sound.
  - intros Ht. rewrite bool_decide_eq_true_2 in Hlo by done.
    destruct i as [|i']; [done|].
    apply is_half_sound in Hlo as (e' & ? & ? & ? & ?).
    exists i', e'. repeat split; [done..|lia|done].
Qed.

Lemma dword_check_all (tbl : list RegisterBank) :
  forallb (dword_check tbl) (seq 0 (length tbl)) = true →
  ∀ i e, tbl !! i = Some e → value e = Z.of_nat i ∧ dword_paired_at tbl i e.
Proof.
  intros Hall i e Hi. apply dword_check_sound; [|done].
  rewrite forallb_forall in Hall. apply Hall, in_seq.
  apply lookup_lt_Some in Hi. lia.
Qed.

End Tables.

(** C10: in both register tables the index of a member is its position,
    every [DWORD_HIGH] member is directly followed by a [DWORD_LOW] member at
    the next index with the same scaling, and every [DWORD_LOW] member is
    directly preceded by a [DWORD_HIGH] member at the previous index with the
    same scaling. *)
Theorem dword_halves_paired (tbl : list RegisterBank) (i : nat)
    (e : RegisterBank) :
  tbl = HoldingRegister ∨ tbl = InputRegister →
  tbl !! i = Some e →
  value e = Z.of_nat i ∧ dword_paired_at tbl i e.
Proof.
  intros [-> | ->]; apply dword_check_all; vm_compute; reflexivity.
Qed.

Lemma dword_halves_paired_witness :
  value (member "E_BATTERY_THROUGHPUT_H" 6 DWORD_HIGH DECI) = 6
  ∧ dword_paired_at InputRegister 6
      (member "E_BATTERY_THROUGHPUT_H" 6 DWORD_HIGH DECI).
Proof.
  apply (dword_halves_paired InputRegister 6); [by right | reflexivity].
Defined.

(* ===================================================================== *)
(** * Further properties of [render] *)
(* ===================================================================== *)

Section RenderMore.

Lemma land_1_odd (v : Z) : (Z.land v 1 =? 0) = negb (Z.odd v).
Proof.
  change 1 with (Z.ones 1) at 1. rewrite Z.land_ones by lia.
  change (2 ^ 1) with 2. rewrite Zmod_odd. by destruct (Z.odd v).
Qed.

Lemma to_bytes2_in_range (v : Z) :
  0 ≤ v < 65536 → to_bytes2 v = Ok (v / 256, v mod 256).
Proof.
  intros Hv. unfold to_bytes2.
  destruct (Z.leb_spec 0 v); [|lia]. destruct (Z.ltb_spec v 65536); [|lia].
  simpl. rewrite Z.shiftr_div_pow2 by lia.
  change 255 with (Z.ones 8). rewrite Z.land_ones by lia. reflexivity.
Qed.

Lemma to_bytes2_out_of_range (v : Z) :
  v < 0 ∨ 65536 ≤ v → to_bytes2 v = Raise OverflowError.
Proof.
  intros Hv. unfold to_bytes2.
  destruct (Z.leb_spec 0 v); destruct (Z.ltb_spec v 65536); simpl;
    try reflexivity; lia.
Qed.

End RenderMore.

(** X1: a [BOOL] register renders as the parity of the word, for every
    integer and whatever scaling is passed. *)
Theorem render_bool_parity (v : Z) (k : pynum) :
  render BOOL v k = Ok (RBool (Z.odd v)).
Proof.
  unfold render. simpl. by rewrite land_1_odd, negb_involutive.
Qed.

(** X2: with the unit scaling, the renderings of a high half and of a low
    half are integers whose sum is what [to_uint32] computes from the same
    two stored words. *)
Theorem render_dword_halves_sum (c : RegisterCache) (hi lo : Register)
    (vh vl : Z) :
  c !! hi = Some (PInt vh) → c !! lo = Some (PInt vl) →
  ∃ a b, render DWORD_HIGH vh (Scaling_value UNIT) = Ok (RNum (NInt a))
         ∧ render DWORD_LOW vl (Scaling_value UNIT) = Ok (RNum (NInt b))
         ∧ to_uint32 hi lo c = (Ok (a + b), c).
Proof.
  intros Hh Hl. exists (Z.shiftl vh 16), vl. repeat split.
  - unfold render. simpl. by rewrite Z.mul_1_r.
  - unfold render. simpl. by rewrite Z.mul_1_r.
  - unfold to_uint32. run. rewrite (getitem_present _ _ _ Hh). simpl.
    by rewrite (getitem_present _ _ _ Hl).
Qed.

Lemma render_dword_halves_sum_witness :
  ∃ a b, render DWORD_HIGH 1 (Scaling_value UNIT) = Ok (RNum (NInt a))
         ∧ render DWORD_LOW 2 (Scaling_value UNIT) = Ok (RNum (NInt b))
         ∧ to_uint32 (IR 47) (IR 48)
             (<[IR 47 := PInt 1]> (<[IR 48 := PInt 2]> ∅))
           = (Ok (a + b), <[IR 47 := PInt 1]> (<[IR 48 := PInt 2]> ∅)).
Proof.
  apply (render_dword_halves_sum
           (<[IR 47 := PInt 1]> (<[IR 48 := PInt 2]> ∅)) (IR 47) (IR 48) 1 2);
    reflexivity.
Defined.

(** X3: on a 16-bit word, [render] returns a value exactly when the kind is
    not [ASCII] or both bytes of the word are below 128. *)
Theorem render_defined_iff (t : Type_) (s : Scaling) (v : Z) :
  0 ≤ v < 65536 →
  is_ok (render t v (Scaling_value s)) = true
  ↔ t ≠ ASCII ∨ (v / 256 < 128 ∧ v mod 256 < 128).
Proof.
  intros Hv. split.
  - intros Hok. destruct (decide (t = ASCII)) as [->|]; [|by left].
    right. destruct (Z.lt_ge_cases (v / 256) 128) as [Hhi|Hhi];
      [destruct (Z.lt_ge_cases (v mod 256) 128) as [Hlo|Hlo]; [done|]|].
    + rewrite render_ascii_8bit in Hok by (auto; lia). discriminate.
    + rewrite render_ascii_8bit in Hok by (auto; lia). discriminate.
  - intros [Ht|[Hhi Hlo]].
    + by apply render_total_non_ascii.
    + destruct (decide (t = ASCII)) as [->|Ht];
        [|by apply render_total_non_ascii].
      by rewrite render_ascii_7bit.
Qed.

Lemma render_defined_iff_witness :
  is_ok (render ASCII 16706 (Scaling_value UNIT)) = true
  ↔ ASCII ≠ ASCII ∨ (16706 / 256 < 128 ∧ 16706 mod 256 < 128).
Proof.
  assert (H : 0 ≤ 16706 < 65536) by lia.
  exact (render_defined_iff ASCII UNIT 16706 H).
Defined.

(** X4: an [ASCII] register whose two bytes are below 128 renders as a string
    of exactly two characters, whose codes are the high byte and the low
    byte of the word, in that order. *)
Theorem render_ascii_two_chars (v : Z) (k : pynum) :
  0 ≤ v < 65536 → v / 256 < 128 → v mod 256 < 128 →
  ∃ a b, render ASCII v k = Ok (RStr (String a (String b "")))
         ∧ ord a = v / 256 ∧ ord b = v mod 256.
Proof.
  intros Hv Hhi Hlo. exists (chr (v / 256)), (chr (v mod 256)).
  split; [by apply render_ascii_7bit|].
  assert (0 ≤ v / 256) by (apply Z.div_pos; lia).
  assert (0 ≤ v mod 256) by (apply Z.mod_pos_bound; lia).
  split; apply ord_chr; lia.
Qed.

Lemma render_ascii_two_chars_witness :
  ∃ a b, render ASCII 16706 (NInt 1) = Ok (RStr (String a (String b "")))
         ∧ ord a = 16706 / 256 ∧ ord b = 16706 mod 256.
Proof.
  apply (render_ascii_two_chars 16706 (NInt 1)); [lia | reflexivity..].
Defined.

(** X5: given an integer that is not a 16-bit word, an [ASCII] register
    raises [OverflowError]. *)
Theorem render_ascii_out_of_range (v : Z) (k : pynum) :
  v < 0 ∨ 65536 ≤ v → render ASCII v k = Raise OverflowError.
Proof.
  intros Hv. unfold render. simpl. by rewrite to_bytes2_out_of_range.
Qed.

Lemma render_ascii_out_of_range_witness :
  render ASCII 65536 (NInt 1) = Raise OverflowError.
Proof. apply render_ascii_out_of_range. right. lia. Defined.

(** X6: with the unit scaling a [SWORD] register renders a 16-bit word as an
    integer between [-32768] and [32767] that is congruent to the word
    modulo [65536], so different words render differently. *)
Theorem render_sword_range (v : Z) :
  0 ≤ v < 65536 →
  ∃ z, render SWORD v (Scaling_value UNIT) = Ok (RNum (NInt z))
       ∧ -32768 ≤ z ≤ 32767 ∧ z mod 65536 = v.
Proof.
  intros Hv. unfold render. simpl. rewrite land_bit15 by lia.
  change (Z.shiftl 1 16) with 65536.
  destruct (Z.ltb_spec v 32768); simpl; eexists; (split; [reflexivity|]).
  - split; [lia|]. rewrite Z.mul_1_r. apply Z.mod_small. lia.
  - split; [lia|]. rewrite Z.mul_1_r.
    symmetry. apply (Z.mod_unique _ _ (-1)); lia.
Qed.

Lemma render_sword_range_witness :
  ∃ z, render SWORD 40000 (Scaling_value UNIT) = Ok (RNum (NInt z))
       ∧ -32768 ≤ z ≤ 32767 ∧ z mod 65536 = 40000.
Proof. apply (render_sword_range 40000). lia. Defined.

(* ===================================================================== *)
(** * What the helpers do to the cache *)
(* ===================================================================== *)

Section Frame.

Implicit Types (c : RegisterCache) (r : Register).

Lemma only_adds_none_refl c : only_adds_none c c.
Proof. intros r. by left. Qed.

Lemma only_adds_none_trans c1 c2 c3 :
  only_adds_none c1 c2 → only_adds_none c2 c3 → only_adds_none c1 c3.
Proof.
  intros H12 H23 r. destruct (H12 r) as [E12|[N1 S2]];
    destruct (H23 r) as [E23|[N2 S3]].
  - left. congruence.
  - right. split; congruence.
  - right. split; congruence.
  - congruence.
Qed.

Lemma adds_none_only_ret {A} (a : A) : adds_none_only (mret a).
Proof. intros c. apply only_adds_none_refl. Qed.

Lemma adds_none_only_lift {A} (x : result A) : adds_none_only (lift x).
Proof. intros c. apply only_adds_none_refl. Qed.

Lemma adds_none_only_bind {A B} (m : M A) (k : A → M B) :
  adds_none_only m → (∀ a, adds_none_only (k a)) → adds_none_only (m ≫= k).
Proof.
  intros Hm Hk c. unfold mbind, M_bind. specialize (Hm c).
  destruct (m c) as [[a|e] c']; simpl in *; [|done].
  eapply only_adds_none_trans; [exact Hm | apply Hk].
Qed.

Lemma adds_none_only_getitem r : adds_none_only (getitem r).
Proof.
  intros c r'. unfold getitem. destruct (c !! r) eqn:Hr; simpl; [by left|].
  destruct (decide (r = r')) as [<-|Hne].
  - right. by rewrite lookup_insert_eq.
  - left. by rewrite lookup_insert_ne.
Qed.

Lemma adds_none_only_get r (d : pyval) : adds_none_only (get r d).
Proof. intros c. apply only_adds_none_refl. Qed.

Lemma adds_none_only_mapM {A B} (f : A → M B) (l : list A) :
  (∀ a, adds_none_only (f a)) → adds_none_only (mapM f l).
Proof.
  intros Hf. induction l as [|a l IH]; [apply adds_none_only_ret|].
  cbn [mapM]. apply adds_none_only_bind; [apply Hf|]. intros b.
  apply adds_none_only_bind; [apply IH|]. intros bs. apply adds_none_only_ret.
Qed.

Lemma adds_none_only_foldM {A B} (f : B → A → M B) (l : list A) (acc : B) :
  (∀ b a, adds_none_only (f b a)) → adds_none_only (foldM f acc l).
Proof.
  intros Hf. revert acc. induction l as [|a l IH]; intros acc;
    [apply adds_none_only_ret|].
  cbn [foldM]. apply adds_none_only_bind; [apply Hf | apply IH].
Qed.

Lemma adds_none_only_to_datetime_try (y m d h min s : Register) :
  adds_none_only (to_datetime_try y m d h min s).
Proof.
  unfold to_datetime_try.
  repeat first
    [ apply adds_none_only_bind; [|intros ?]
    | apply adds_none_only_getitem
    | apply adds_none_only_get
    | apply adds_none_only_lift ].
Qed.

End Frame.

Create HintDb frame.

#[local] Hint Resolve adds_none_only_ret adds_none_only_lift
  adds_none_only_getitem adds_none_only_get : frame.

(** X7: no helper changes or removes a stored word: after any call, with any
    outcome, the cache is the one before the call with [None] stored under
    some of the registers that were missing. *)
Theorem helpers_only_add_none (c : RegisterCache) (rs : list Register)
    (y m d h min s : Register) :
  only_adds_none c (to_string rs c).2
  ∧ only_adds_none c (to_hex_string rs c).2
  ∧ only_adds_none c (to_duint8 rs c).2
  ∧ only_adds_none c (to_uint32 y m c).2
  ∧ only_adds_none c (to_datetime y m d h min s c).2.
Proof.
  repeat split.
  - revert c. change (adds_none_only (to_string rs)). unfold to_string.
    apply adds_none_only_bind; [|auto with frame].
    apply adds_none_only_mapM. intros r.
    apply adds_none_only_bind; auto with frame.
  - revert c. change (adds_none_only (to_hex_string rs)). unfold to_hex_string.
    apply adds_none_only_bind.
    + apply adds_none_only_mapM. intros r.
      apply adds_none_only_bind; auto with frame.
    + intros values. destruct (forallb _ values); [|auto with frame].
      apply adds_none_only_bind; [|auto with frame].
      apply adds_none_only_foldM. intros acc r.
      apply adds_none_only_bind; [auto with frame|]. intros v.
      apply adds_none_only_bind; auto with frame.
  - revert c. change (adds_none_only (to_duint8 rs)). unfold to_duint8.
    apply adds_none_only_bind; [|auto with frame].
    apply adds_none_only_mapM. intros r.
    repeat (apply adds_none_only_bind; [auto with frame|intros ?]).
    auto with frame.
  - revert c. change (adds_none_only (to_uint32 y m)). unfold to_uint32.
    repeat (apply adds_none_only_bind; [auto with frame|intros ?]).
    auto with frame.
  - pose proof (adds_none_only_to_datetime_try y m d h min s c) as Htry.
    unfold to_datetime.
    by destruct (to_datetime_try y m d h min s c) as [[dt|e] c'].
Qed.

(* ===================================================================== *)
(** * The helpers on stored words *)
(* ===================================================================== *)

Section Stored.

Implicit Types (c : RegisterCache) (r : Register).

Lemma word_bytes_in_range (v : Z) :
  0 ≤ v < 65536 →
  word_bytes v = [v / 256; v mod 256]
  ∧ 0 ≤ v / 256 < 256 ∧ 0 ≤ v mod 256 < 256.
Proof.
  intros Hv. unfold word_bytes. rewrite Z.shiftr_div_pow2 by lia.
  change 255 with (Z.ones 8). rewrite Z.land_ones by lia.
  change (2 ^ 8) with 256. split; [done|]. split.
  - split; [apply Z.div_pos; lia | apply Z.div_lt_upper_bound; lia].
  - apply Z.mod_pos_bound. lia.
Qed.

Lemma mapM_duint8_present c (rs : list Register) (vs : list Z) :
  Forall2 (λ r z, c !! r = Some (PInt z)) rs vs →
  mapM (λ r, v ← getitem r; hi ← lift (val_int v);
             w ← getitem r; lo ← lift (val_int w);
             mret [Z.shiftr hi 8; Z.land lo 255]) rs c
  = (Ok (word_bytes <$> vs), c).
Proof.
  induction 1 as [|r z rs vs Hr _ IH]; [done|].
  cbn [mapM]. run. rewrite (getitem_present _ _ _ Hr). cbn.
  rewrite (getitem_present _ _ _ Hr). cbn.
  unfold mbind, M_bind, mret, M_ret, lift in IH. by rewrite IH.
Qed.

Lemma mapM_to_string_present c (rs : list Register) (vs : list Z) :
  Forall2 (λ r z, c !! r = Some (PInt z) ∧ 0 ≤ z < 65536) rs vs →
  mapM (λ r, v ← getitem r; lift (decode_latin1_2 <$> val_to_bytes v)) rs c
  = (Ok (word_bytes <$> vs), c).
Proof.
  induction 1 as [|r z rs vs [Hr Hz] _ IH]; [done|].
  cbn [mapM]. run. rewrite (getitem_present _ _ _ Hr). cbn.
  unfold to_bytes2. destruct (Z.leb_spec 0 z); [|lia].
  destruct (Z.ltb_spec z 65536); [|lia]. cbn.
  unfold mbind, M_bind, mret, M_ret, lift in IH. by rewrite IH.
Qed.

Lemma serial_chars_kept (l : list Z) :
  Forall (λ n, is_serial_char n = true) l →
  concat (u_upper <$> filter (λ n, u_isalnum n = true) l) = l.
Proof.
  induction 1 as [|n l Hn _ IH]; [done|].
  unfold is_serial_char, between in Hn.
  assert (Hal : u_isalnum n = true).
  { unfold u_isalnum, between.
    apply orb_true_iff in Hn as [Hd|Hu]; rewrite ?Hd, ?Hu; simpl;
      by rewrite ?orb_true_r. }
  assert (Hup : u_upper n = [n]).
  { unfold u_upper, between.
    repeat match goal with
           | |- context [?a <=? ?b] => destruct (Z.leb_spec a b)
           | |- context [?a =? ?b] => destruct (Z.eqb_spec a b)
           end; simpl; try reflexivity; exfalso;
      repeat match goal with
             | H : (_ && _) || (_ && _) = true |- _ =>
                 apply orb_true_iff in H as [H|H]
             | H : _ && _ = true |- _ => apply andb_true_iff in H as [? ?]
             | H : (_ <=? _) = true |- _ => apply Z.leb_le in H
             end; lia. }
  rewrite filter_cons_True by done. cbn [fmap list_fmap concat].
  rewrite Hup. cbn [app]. f_equal. exact IH.
Qed.

End Stored.

(** X8: for two stored 16-bit words [to_uint32] returns an unsigned 32-bit
    integer from which both words can be read back: the quotient by [65536]
    is the high word and the remainder is the low word. *)
Theorem to_uint32_decompose (c : RegisterCache) (hi lo : Register)
    (vh vl : Z) :
  c !! hi = Some (PInt vh) → c !! lo = Some (PInt vl) →
  0 ≤ vh < 65536 → 0 ≤ vl < 65536 →
  ∃ n, to_uint32 hi lo c = (Ok n, c)
       ∧ 0 ≤ n < 2 ^ 32 ∧ n / 65536 = vh ∧ n mod 65536 = vl.
Proof.
  intros Hh Hl Rh Rl. exists (vh * 65536 + vl). split; [|split; [|split]].
  - unfold to_uint32. run. rewrite (getitem_present _ _ _ Hh). simpl.
    rewrite (getitem_present _ _ _ Hl). simpl.
    by rewrite Z.shiftl_mul_pow2 by lia.
  - change (2 ^ 32) with 4294967296. lia.
  - symmetry. apply (Z.div_unique _ 65536 vh vl); lia.
  - symmetry. apply (Z.mod_unique _ 65536 vh vl); lia.
Qed.

Lemma to_uint32_decompose_witness :
  ∃ n, to_uint32 (IR 47) (IR 48)
         (<[IR 47 := PInt 65535]> (<[IR 48 := PInt 65535]> ∅))
       = (Ok n, <[IR 47 := PInt 65535]> (<[IR 48 := PInt 65535]> ∅))
       ∧ 0 ≤ n < 2 ^ 32 ∧ n / 65536 = 65535 ∧ n mod 65536 = 65535.
Proof.
  apply (to_uint32_decompose
           (<[IR 47 := PInt 65535]> (<[IR 48 := PInt 65535]> ∅))
           (IR 47) (IR 48) 65535 65535); [reflexivity | reflexivity | lia | lia].
Defined.

(** X9: when all the registers are stored, [to_duint8] returns the bytes of
    the words in call order, high byte first, two per register, and leaves
    the cache as it was. *)
Theorem to_duint8_stored_words (c : RegisterCache) (rs : list Register)
    (vs : list Z) :
  Forall2 (λ r z, c !! r = Some (PInt z)) rs vs →
  to_duint8 rs c = (Ok (concat (word_bytes <$> vs)), c)
  ∧ length (concat (word_bytes <$> vs)) = (2 * length rs)%nat.
Proof.
  intros H. split.
  - unfold to_duint8.
    by rewrite (bind_ok _ _ _ _ _ (mapM_duint8_present c rs vs H)).
  - apply Forall2_length in H. rewrite H. clear H.
    induction vs as [|v vs IH]; [done|]. cbn. rewrite IH. lia.
Qed.

Lemma to_duint8_stored_words_witness :
  to_duint8 [HR 13; HR 14]
    (<[HR 13 := PInt 16706]> (<[HR 14 := PInt 17220]> ∅))
  = (Ok (concat (word_bytes <$> [16706; 17220])),
     <[HR 13 := PInt 16706]> (<[HR 14 := PInt 17220]> ∅))
  ∧ length (concat (word_bytes <$> [16706; 17220]))
    = (2 * length [HR 13; HR 14])%nat.
Proof.
  apply (to_duint8_stored_words
           (<[HR 13 := PInt 16706]> (<[HR 14 := PInt 17220]> ∅))
           [HR 13; HR 14] [16706; 17220]).
  repeat constructor.
Defined.

(** X10: for one register storing a 16-bit word, [to_duint8] returns two
    bytes, each between [0] and [255], that recombine to the word. *)
Theorem to_duint8_recombines (c : RegisterCache) (r : Register) (v : Z) :
  c !! r = Some (PInt v) → 0 ≤ v < 65536 →
  ∃ hi lo, to_duint8 [r] c = (Ok [hi; lo], c)
           ∧ 0 ≤ hi < 256 ∧ 0 ≤ lo < 256 ∧ hi * 256 + lo = v.
Proof.
  intros Hr Hv. destruct (word_bytes_in_range v Hv) as (Hb & Hhi & Hlo).
  exists (v / 256), (v mod 256). split; [|split; [done|split; [done|]]].
  - assert (HF : Forall2 (λ r z, c !! r = Some (PInt z)) [r] [v])
      by by repeat constructor.
    unfold to_duint8.
    rewrite (bind_ok _ _ _ _ _ (mapM_duint8_present c [r] [v] HF)).
    unfold mret, M_ret. cbn [fmap list_fmap concat]. by rewrite Hb.
  - pose proof (Z.div_mod v 256). lia.
Qed.

Lemma to_duint8_recombines_witness :
  ∃ hi lo, to_duint8 [HR 13] (<[HR 13 := PInt 16706]> ∅)
           = (Ok [hi; lo], <[HR 13 := PInt 16706]> ∅)
           ∧ 0 ≤ hi < 256 ∧ 0 ≤ lo < 256 ∧ hi * 256 + lo = 16706.
Proof.
  apply (to_duint8_recombines (<[HR 13 := PInt 16706]> ∅) (HR 13) 16706);
    [reflexivity | lia].
Defined.

(** X11: when all the registers store 16-bit words, [to_string] takes the
    bytes of the words in call order, keeps the alphanumeric ones, puts them
    in upper case, and leaves the cache as it was. *)
Theorem to_string_stored_words (c : RegisterCache) (rs : list Register)
    (vs : list Z) :
  Forall2 (λ r z, c !! r = Some (PInt z) ∧ 0 ≤ z < 65536) rs vs →
  to_string rs c
  = (Ok (concat (u_upper <$> filter (λ n, u_isalnum n = true)
                               (concat (word_bytes <$> vs)))), c).
Proof.
  intros H. unfold to_string.
  by rewrite (bind_ok _ _ _ _ _ (mapM_to_string_present c rs vs H)).
Qed.

Lemma to_string_stored_words_witness :
  to_string [HR 13; HR 14]
    (<[HR 13 := PInt 24941]> (<[HR 14 := PInt 11569]> ∅))
  = (Ok (ustr_of_string "AM1"),
     <[HR 13 := PInt 24941]> (<[HR 14 := PInt 11569]> ∅)).
Proof.
  refine (to_string_stored_words
            (<[HR 13 := PInt 24941]> (<[HR 14 := PInt 11569]> ∅))
            [HR 13; HR 14] [24941; 11569] _).
  repeat constructor; lia.
Defined.

(** X12: when every byte of the stored words is an ASCII digit or upper-case
    letter, [to_string] returns exactly those bytes, in call order. *)
Theorem to_string_serial_number (c : RegisterCache) (rs : list Register)
    (vs : list Z) :
  Forall2 (λ r z, c !! r = Some (PInt z) ∧ 0 ≤ z < 65536) rs vs →
  Forall (λ n, is_serial_char n = true) (concat (word_bytes <$> vs)) →
  to_string rs c = (Ok (concat (word_bytes <$> vs)), c).
Proof.
  intros H Hs. unfold to_string.
  rewrite (bind_ok _ _ _ _ _ (mapM_to_string_present c rs vs H)).
  unfold mret, M_ret. by rewrite serial_chars_kept.
Qed.

Lemma to_string_serial_number_witness :
  to_string [HR 13; HR 14]
    (<[HR 13 := PInt 21313]> (<[HR 14 := PInt 12594]> ∅))
  = (Ok (ustr_of_string "SA12"),
     <[HR 13 := PInt 21313]> (<[HR 14 := PInt 12594]> ∅)).
Proof.
  refine (to_string_serial_number
            (<[HR 13 := PInt 21313]> (<[HR 14 := PInt 12594]> ∅))
            [HR 13; HR 14] [21313; 12594] _ _).
  - repeat constructor; lia.
  - repeat constructor.
Defined.

(** X13: [to_string] raises [OverflowError] on a stored integer that is not
    a 16-bit word, and leaves the cache as it was. *)
Theorem to_string_overflow (c : RegisterCache) (r : Register)
    (rs : list Register) (v : Z) :
  c !! r = Some (PInt v) → v < 0 ∨ 65536 ≤ v →
  to_string (r :: rs) c = (Raise OverflowError, c).
Proof.
  intros Hr Hv. unfold to_string. cbn [mapM]. run.
  rewrite (getitem_present _ _ _ Hr). cbn.
  by rewrite to_bytes2_out_of_range.
Qed.

Lemma to_string_overflow_witness :
  to_string [HR 13; HR 14] (<[HR 13 := PInt 65536]> ∅)
  = (Raise OverflowError, <[HR 13 := PInt 65536]> ∅).
Proof.
  apply (to_string_overflow (<[HR 13 := PInt 65536]> ∅) (HR 13) [HR 14] 65536);
    [reflexivity | right; lia].
Defined.

(* ===================================================================== *)
(** * [to_hex_string] on 16-bit words *)
(* ===================================================================== *)

Section Hex16.

Implicit Types (c : RegisterCache) (r : Register).

Lemma hex_digit_upper (x : Z) :
  0 ≤ x < 16 →
  isalnum (hex_digit x) = true ∧ upper_char (hex_digit x) = HEX_digit x.
Proof.
  intros Hx.
  assert (Hcases : x = 0 ∨ x = 1 ∨ x = 2 ∨ x = 3 ∨ x = 4 ∨ x = 5 ∨ x = 6
                   ∨ x = 7 ∨ x = 8 ∨ x = 9 ∨ x = 10 ∨ x = 11 ∨ x = 12
                   ∨ x = 13 ∨ x = 14 ∨ x = 15) by lia.
  repeat (destruct Hcases as [->|Hcases]; [by split|]).
  subst x. by split.
Qed.

Lemma digits_step (base : Z) (digit : Z → ascii) (fuel : nat) (n : Z)
    (acc : string) :
  digits base digit (S fuel) n acc
  = if n / base =? 0 then String (digit (n mod base)) acc
    else digits base digit fuel (n / base) (String (digit (n mod base)) acc).
Proof. reflexivity. Qed.

Lemma hex_digits_1 (fuel : nat) (n : Z) (acc : string) :
  0 ≤ n < 16 → (1 ≤ fuel)%nat →
  digits 16 hex_digit fuel n acc = String (hex_digit n) acc.
Proof.
  intros Hn Hf. destruct fuel as [|fuel]; [lia|]. rewrite digits_step.
  rewrite Z.div_small, Z.mod_small by lia. reflexivity.
Qed.

Lemma hex_digits_more (fuel : nat) (n : Z) (acc : string) :
  16 ≤ n → (1 ≤ fuel)%nat →
  digits 16 hex_digit fuel n acc
  = digits 16 hex_digit (pred fuel) (n / 16) (String (hex_digit (n mod 16)) acc).
Proof.
  intros Hn Hf. destruct fuel as [|fuel]; [lia|]. rewrite digits_step.
  assert (0 < n / 16) by (apply Z.div_str_pos; lia).
  destruct (Z.eqb_spec (n / 16) 0); [lia | reflexivity].
Qed.

Lemma digit_fuel_16 (n : Z) : 16 ≤ n → (5 ≤ digit_fuel n)%nat.
Proof.
  intros Hn. unfold digit_fuel.
  pose proof (Z.log2_le_mono 16 n Hn) as Hl.
  change (Z.log2 16) with 4 in Hl. lia.
Qed.

(** Stripping and upper-casing the format of a 16-bit word gives its four
    upper-case hexadecimal digits. *)
Lemma hex4_format (v : Z) :
  0 ≤ v < 65536 → upper (str_filter isalnum (format_04x v)) = hex4 v.
Proof.
  intros Hv. unfold format_04x, hex4.
  destruct (Z.ltb_spec v 0); [lia|]. rewrite Z.abs_eq by lia.
  assert (Hm : ∀ x, 0 ≤ x mod 16 < 16) by (intros; apply Z.mod_pos_bound; lia).
  assert (Hchar : ∀ x s, 0 ≤ x < 16 →
    upper (str_filter isalnum (String (hex_digit x) s))
    = String (HEX_digit x) (upper (str_filter isalnum s))).
  { intros x s Hx. destruct (hex_digit_upper x Hx) as [Ha Hu].
    cbn [str_filter]. rewrite Ha. unfold upper. cbn [str_map]. by rewrite Hu. }
  destruct (Z.lt_ge_cases v 16) as [H1|H1].
  { rewrite hex_digits_1 by (unfold digit_fuel; lia).
    rewrite !Z.div_small by lia. rewrite (Z.mod_small v 16) by lia.
    cbn [String.length Nat.sub zero_pad].
    change "0"%char with (hex_digit 0). by rewrite !Hchar by lia. }
  pose proof (digit_fuel_16 v H1) as Hf.
  rewrite hex_digits_more by lia.
  assert (Hq1 : 0 ≤ v / 16 < 4096)
    by (split; [apply Z.div_pos; lia | apply Z.div_lt_upper_bound; lia]).
  destruct (Z.lt_ge_cases v 256) as [H2|H2].
  { rewrite hex_digits_1;
      [| split; [lia | apply Z.div_lt_upper_bound; lia] | lia].
    rewrite (Z.div_small v 4096), (Z.div_small v 256) by lia.
    rewrite (Z.mod_small (v / 16) 16)
      by (split; [lia | apply Z.div_lt_upper_bound; lia]).
    cbn [String.length Nat.sub zero_pad].
    change "0"%char with (hex_digit 0).
    rewrite !Hchar; try done; try lia.
    split; [lia | apply Z.div_lt_upper_bound; lia]. }
  assert (H16 : 16 ≤ v / 16) by (apply Z.div_le_lower_bound; lia).
  rewrite hex_digits_more by lia.
  rewrite Z.div_div by lia. change (16 * 16) with 256.
  assert (Hq2 : 0 ≤ v / 256 < 256)
    by (split; [apply Z.div_pos; lia | apply Z.div_lt_upper_bound; lia]).
  destruct (Z.lt_ge_cases v 4096) as [H3|H3].
  { rewrite hex_digits_1;
      [| split; [lia | apply Z.div_lt_upper_bound; lia] | lia].
    rewrite (Z.div_small v 4096) by lia.
    rewrite (Z.mod_small (v / 256) 16)
      by (split; [lia | apply Z.div_lt_upper_bound; lia]).
    cbn [String.length Nat.sub zero_pad].
    change "0"%char with (hex_digit 0).
    rewrite !Hchar; try done; try lia.
    split; [lia | apply Z.div_lt_upper_bound; lia]. }
  assert (H256 : 16 ≤ v / 256) by (apply Z.div_le_lower_bound; lia).
  rewrite hex_digits_more by lia.
  rewrite Z.div_div by lia. change (256 * 16) with 4096.
  assert (Hq3 : 0 ≤ v / 4096 < 16)
    by (split; [apply Z.div_pos; lia | apply Z.div_lt_upper_bound; lia]).
  rewrite hex_digits_1 by lia.
  cbn [String.length Nat.sub zero_pad].
  by rewrite !Hchar.
Qed.

Lemma str_filter_app (p : ascii → bool) (s t : string) :
  str_filter p (s +:+ t) = str_filter p s +:+ str_filter p t.
Proof.
  induction s as [|a s IH]; [done|].
  change (String a s +:+ t) with (String a (s +:+ t)). cbn [str_filter].
  rewrite IH. by destruct (p a).
Qed.

Lemma str_map_app (f : ascii → ascii) (s t : string) :
  str_map f (s +:+ t) = str_map f s +:+ str_map f t.
Proof.
  induction s as [|a s IH]; [done|].
  change (String a s +:+ t) with (String a (s +:+ t)). cbn [str_map].
  by rewrite IH.
Qed.

Lemma str_length_app (s t : string) :
  String.length (s +:+ t) = (String.length s + String.length t)%nat.
Proof.
  induction s as [|a s IH]; [done|].
  change (String a s +:+ t) with (String a (s +:+ t)). cbn [String.length].
  by rewrite IH.
Qed.

Lemma hex4_concat (vs : list Z) :
  Forall (λ z, 0 ≤ z < 65536) vs →
  upper (str_filter isalnum (str_concat (format_04x <$> vs)))
    = str_concat (hex4 <$> vs)
  ∧ String.length (str_concat (hex4 <$> vs)) = (4 * length vs)%nat.
Proof.
  induction 1 as [|v vs Hv _ [IH1 IH2]]; [done|].
  cbn [fmap list_fmap str_concat foldr]. split.
  - unfold upper in *. rewrite str_filter_app, str_map_app.
    fold (str_concat (format_04x <$> vs)). rewrite IH1.
    by rewrite <- (hex4_format v Hv).
  - rewrite str_length_app. fold (str_concat (hex4 <$> vs)). rewrite IH2.
    cbn. lia.
Qed.

End Hex16.

(** X14: when all the registers store 16-bit words, [to_hex_string] returns
    the four upper-case hexadecimal digits of each word, in call order, four
    characters per register, and leaves the cache as it was. *)
Theorem to_hex_string_words16 (c : RegisterCache) (rs : list Register)
    (vs : list Z) :
  Forall2 (λ r z, c !! r = Some (PInt z) ∧ 0 ≤ z < 65536) rs vs →
  to_hex_string rs c = (Ok (str_concat (hex4 <$> vs)), c)
  ∧ String.length (str_concat (hex4 <$> vs)) = (4 * length rs)%nat.
Proof.
  intros H.
  assert (Hp : Forall2 (λ r z, c !! r = Some (PInt z)) rs vs).
  { eapply Forall2_impl; [exact H|]. by intros r z [? _]. }
  assert (Hr : Forall (λ z, 0 ≤ z < 65536) vs).
  { clear Hp. induction H as [|r z rs vs [_ Hz] _ IH]; by constructor. }
  destruct (hex4_concat vs Hr) as [Hcat Hlen].
  split; [|by rewrite (Forall2_length _ _ _ H)].
  unfold to_hex_string.
  rewrite (bind_ok _ _ _ _ _ (mapM_format_present c rs vs Hp)).
  assert (forallb (λ s, negb (String.eqb s "")) (format_04x <$> vs) = true)
    as ->.
  { apply forallb_forall. intros s [z [<- _]]%in_map_iff.
    by rewrite string_eqb_empty by apply format_04x_nonempty. }
  rewrite (bind_ok _ _ _ _ _ (foldM_format_present c rs vs "" Hp)).
  unfold mret, M_ret. f_equal. f_equal. exact Hcat.
Qed.

Lemma to_hex_string_words16_witness :
  to_hex_string [HR 21; HR 19]
    (<[HR 21 := PInt 449]> (<[HR 19 := PInt 48879]> ∅))
  = (Ok "01C1BEEF", <[HR 21 := PInt 449]> (<[HR 19 := PInt 48879]> ∅))
  ∧ String.length "01C1BEEF" = (4 * length [HR 21; HR 19])%nat.
Proof.
  apply (to_hex_string_words16
           (<[HR 21 := PInt 449]> (<[HR 19 := PInt 48879]> ∅))
           [HR 21; HR 19] [449; 48879]).
  repeat constructor; lia.
Defined.

(* ===================================================================== *)
(** * [to_datetime] *)
(* ===================================================================== *)

Section Datetime.

Implicit Types (c : RegisterCache) (r : Register).

Lemma as_c_int_ok (v : pyval) (z : Z) : as_c_int v = Ok z → v = PInt z.
Proof.
  destruct v as [|z']; [done|]. unfold as_c_int.
  destruct (_ && _); congruence.
Qed.

Lemma datetime_new_ok (a b c d e f : pyval) (dt : datetime) :
  datetime_new a b c d e f = Ok dt →
  a = PInt (year dt) ∧ b = PInt (month dt) ∧ c = PInt (day dt)
  ∧ d = PInt (hour dt) ∧ e = PInt (minute dt) ∧ f = PInt (second dt)
  ∧ datetime_valid dt.
Proof.
  unfold datetime_new.
  destruct (as_c_int a) as [y|] eqn:Ha; [|done].
  destruct (as_c_int b) as [m|] eqn:Hb; [|done].
  destruct (as_c_int c) as [dd|] eqn:Hc; [|done].
  destruct (as_c_int d) as [h|] eqn:Hd; [|done].
  destruct (as_c_int e) as [mi|] eqn:He; [|done].
  destruct (as_c_int f) as [s|] eqn:Hf; [|done].
  apply as_c_int_ok in Ha, Hb, Hc, Hd, He, Hf. subst. cbn [rbind].
  destruct (_ && _) eqn:Hchk; [|done]. intros [= <-]. cbn.
  unfold between in Hchk.
  repeat match type of Hchk with
         | _ && _ = true => apply andb_true_iff in Hchk as [Hchk ?]
         end.
  repeat match goal with
         | H : _ && _ = true |- _ => apply andb_true_iff in H as [? ?]
         | H : (_ <=? _) = true |- _ => apply Z.leb_le in H
         end.
  unfold datetime_valid. cbn. repeat split; (done || lia).
Qed.

Lemma getitem_int r c (z : Z) c1 :
  getitem r c = (Ok (PInt z), c1) → c !! r = Some (PInt z) ∧ c1 = c.
Proof.
  unfold getitem. destruct (c !! r) as [v|]; [|done].
  by intros [= -> ->].
Qed.

Lemma getitem_ok r c : ∃ v c1, getitem r c = (Ok v, c1).
Proof. unfold getitem. destruct (c !! r); eauto. Qed.

(** What a successful [try] block has read. *)
Lemma to_datetime_try_ok (y m d h min s : Register) c (dt : datetime) c' :
  to_datetime_try y m d h min s c = (Ok dt, c') →
  c' = c ∧ datetime_valid dt
  ∧ c !! y = Some (PInt (year dt - 2000))
  ∧ from_option id (PInt 1) (c !! m) = PInt (month dt)
  ∧ from_option id (PInt 1) (c !! d) = PInt (day dt)
  ∧ c !! h = Some (PInt (hour dt))
  ∧ c !! min = Some (PInt (minute dt))
  ∧ c !! s = Some (PInt (second dt)).
Proof.
  unfold to_datetime_try, mbind, M_bind, mret, M_ret, lift, get.
  destruct (getitem y c) as [[[|vy]|e] c1] eqn:Gy; cbn [val_int]; try done.
  apply getitem_int in Gy as [Hy ->].
  destruct (getitem h c) as [[vh|e] c2] eqn:Gh;
    [|by destruct (getitem_ok h c) as (? & ? & ?); congruence].
  destruct (getitem min c2) as [[vmin|e] c3] eqn:Gmin;
    [|by destruct (getitem_ok min c2) as (? & ? & ?); congruence].
  destruct (getitem s c3) as [[vs|e] c4] eqn:Gs;
    [|by destruct (getitem_ok s c3) as (? & ? & ?); congruence].
  intros [= Hnew <-].
  apply datetime_new_ok in Hnew as (Ey & Em & Ed & Eh & Emin & Es & Hvalid).
  subst vh vmin vs.
  apply getitem_int in Gh as [Hh ->].
  apply getitem_int in Gmin as [Hmin ->].
  apply getitem_int in Gs as [Hs ->].
  injection Ey as Ey. rewrite <- Ey.
  replace (vy + 2000 - 2000) with vy by lia. done.
Qed.

End Datetime.

(** X15: [to_datetime] raises exactly when its [try] block raises, and what
    it then raises is always [ValueError], whatever the [try] block raised (a
    [TypeError] for a missing register included); the cache is left as the
    [try] block left it. *)
Theorem to_datetime_raises_iff_try_raises (y m d h min s : Register)
    (c c' : RegisterCache) (e : exn) :
  to_datetime y m d h min s c = (Raise e, c')
  ↔ e = ValueError ∧ ∃ e0, to_datetime_try y m d h min s c = (Raise e0, c').
Proof.
  unfold to_datetime.
  destruct (to_datetime_try y m d h min s c) as [[dt|e0] c0]; cbn.
  - split; [done|]. by intros [_ [e1 ?]].
  - split.
    + intros [= <- <-]. eauto.
    + by intros [-> [e1 [= _ ->]]].
Qed.

Lemma to_datetime_raises_iff_try_raises_witness :
  to_datetime (HR 35) (HR 36) (HR 37) (HR 38) (HR 39) (HR 40) ∅
  = (Raise ValueError, <[HR 35 := PNone]> ∅).
Proof.
  apply (to_datetime_raises_iff_try_raises
           (HR 35) (HR 36) (HR 37) (HR 38) (HR 39) (HR 40)
           ∅ (<[HR 35 := PNone]> ∅) ValueError).
  split; [reflexivity|]. exists TypeError. reflexivity.
Defined.

(** X16: when [to_datetime] returns, the year, hour, minute and second
    registers are stored, the timestamp is a valid date and time whose fields
    are the stored words (the year plus 2000, and the month and the day [1]
    when their register is missing), and the cache is left as it was. *)
Theorem to_datetime_returns (y m d h min s : Register) (c c' : RegisterCache)
    (dt : datetime) :
  to_datetime y m d h min s c = (Ok dt, c') →
  c' = c ∧ datetime_valid dt
  ∧ c !! y = Some (PInt (year dt - 2000))
  ∧ from_option id (PInt 1) (c !! m) = PInt (month dt)
  ∧ from_option id (PInt 1) (c !! d) = PInt (day dt)
  ∧ c !! h = Some (PInt (hour dt))
  ∧ c !! min = Some (PInt (minute dt))
  ∧ c !! s = Some (PInt (second dt)).
Proof.
  unfold to_datetime.
  destruct (to_datetime_try y m d h min s c) as [[dt0|e] c0] eqn:Htry.
  - intros [= <- <-]. by apply to_datetime_try_ok in Htry.
  - cbn. discriminate.
Qed.

Lemma to_datetime_returns_witness :
  datetime_valid (mk_datetime 2024 2 29 23 59 58)
  ∧ clock_cache 24 2 29 23 59 58 !! HR 35 = Some (PInt 24).
Proof.
  pose proof (to_datetime_returns (HR 35) (HR 36) (HR 37) (HR 38) (HR 39)
                (HR 40) (clock_cache 24 2 29 23 59 58)
                (clock_cache 24 2 29 23 59 58)
                (mk_datetime 2024 2 29 23 59 58) eq_refl)
    as (_ & Hv & Hy & _).
  split; [exact Hv | exact Hy].
Defined.

(** X17: with the month and the day registers missing and the other four in
    range, [to_datetime] returns the first of January; once the month
    register has been read with [self[m]], which stores [None] under it, the
    same call raises [ValueError]. *)
Theorem to_datetime_default_lost_after_lookup (y m d h min s : Register)
    (c : RegisterCache) (vy vh vmin vs : Z) :
  c !! y = Some (PInt vy) → c !! m = None → c !! d = None →
  c !! h = Some (PInt vh) → c !! min = Some (PInt vmin) →
  c !! s = Some (PInt vs) →
  0 ≤ vy ≤ 7999 → 0 ≤ vh ≤ 23 → 0 ≤ vmin ≤ 59 → 0 ≤ vs ≤ 59 →
  to_datetime y m d h min s c
    = (Ok (mk_datetime (vy + 2000) 1 1 vh vmin vs), c)
  ∧ to_datetime y m d h min s (getitem m c).2
    = (Raise ValueError, (getitem m c).2).
Proof.
  intros Hy Hm Hd Hh Hmin Hs Ry Rh Rmin Rs.
  split; [by apply to_datetime_defaults|].
  rewrite (getitem_absent _ _ Hm). cbn [snd].
  assert (Hy' : <[m := PNone]> c !! y = Some (PInt vy))
    by (rewrite lookup_insert_ne; [done | congruence]).
  assert (Hh' : <[m := PNone]> c !! h = Some (PInt vh))
    by (rewrite lookup_insert_ne; [done | congruence]).
  assert (Hmin' : <[m := PNone]> c !! min = Some (PInt vmin))
    by (rewrite lookup_insert_ne; [done | congruence]).
  assert (Hs' : <[m := PNone]> c !! s = Some (PInt vs))
    by (rewrite lookup_insert_ne; [done | congruence]).
  unfold to_datetime, to_datetime_try, get.
  unfold mbind, M_bind, mret, M_ret, lift.
  rewrite (getitem_present _ _ _ Hy'). cbn [val_int].
  rewrite lookup_insert_eq.
  rewrite (getitem_present _ _ _ Hh'), (getitem_present _ _ _ Hmin'),
    (getitem_present _ _ _ Hs').
  cbn [from_option id]. unfold datetime_new at 1.
  by destruct (as_c_int (PInt (vy + 2000))).
Qed.

Lemma to_datetime_default_lost_after_lookup_witness :
  to_datetime (HR 35) (HR 36) (HR 37) (HR 38) (HR 39) (HR 40)
    (<[HR 35 := PInt 22]> (<[HR 38 := PInt 7]>
       (<[HR 39 := PInt 30]> (<[HR 40 := PInt 0]> ∅))))
  = (Ok (mk_datetime (22 + 2000) 1 1 7 30 0),
     <[HR 35 := PInt 22]> (<[HR 38 := PInt 7]>
       (<[HR 39 := PInt 30]> (<[HR 40 := PInt 0]> ∅)))).
Proof.
  refine (proj1 (to_datetime_default_lost_after_lookup
            (HR 35) (HR 36) (HR 37) (HR 38) (HR 39) (HR 40)
            (<[HR 35 := PInt 22]> (<[HR 38 := PInt 7]>
               (<[HR 39 := PInt 30]> (<[HR 40 := PInt 0]> ∅))))
            22 7 30 0 _ _ _ _ _ _ _ _ _ _)); (reflexivity || lia).
Defined.

(* ===================================================================== *)
(** * Further properties of the serialization *)
(* ===================================================================== *)

Section JsonMore.

Implicit Types (c ret : RegisterCache) (r : Register) (v : pyval).

Lemma Register_str_Inj : Inj (=) (=) Register_str.
Proof. intros r1 r2. apply Register_str_inj. Qed.

Lemma find_absent (ch : ascii) (s : string) :
  str_forallb (λ a, negb (Ascii.eqb a ch)) s = true → find ch s = -1.
Proof.
  induction s as [|a s IH]; [done|]. cbn [str_forallb find].
  intros [Ha Hs]%andb_true_iff. apply negb_true_iff in Ha.
  by rewrite Ha, (IH Hs).
Qed.

Lemma str_of_int_chars (z : Z) :
  str_forallb (λ a, is_digit a || Ascii.eqb a "-") (str_of_int z) = true.
Proof.
  assert (Hd : ∀ n, 0 ≤ n →
    str_forallb (λ a, is_digit a || Ascii.eqb a "-")
      (digits 10 dec_digit (digit_fuel n) n "") = true).
  { intros n Hn. eapply str_forallb_impl;
      [|by apply digits_all_digits]. by intros a ->. }
  unfold str_of_int. destruct (Z.ltb_spec z 0); [|by apply Hd].
  cbn [str_forallb]. rewrite Hd by lia. reflexivity.
Qed.

Lemma str_of_int_no_char (ch : ascii) (z : Z) :
  is_digit ch = false → ch ≠ "-"%char → find ch (str_of_int z) = -1.
Proof.
  intros Hd Hm. apply find_absent.
  eapply str_forallb_impl; [|apply str_of_int_chars].
  intros a Ha. apply negb_true_iff.
  destruct (Ascii.eqb_spec a ch) as [->|]; [|done].
  rewrite Hd in Ha. cbn in Ha.
  by destruct (Ascii.eqb_spec ch "-").
Qed.

(** The legacy key of a register is read back as that register. *)
Lemma hook_entry_colon_key r : hook_entry (colon_key r) = Ok (Some r).
Proof.
  destruct r as [b z]. unfold hook_entry, colon_key, split_key.
  cbn [bank offset]. set (ds := str_of_int z).
  assert (Hp : find "(" ds = -1) by by apply str_of_int_no_char.
  destruct b; cbn [abbrev].
  - change ("HR" +:+ ":" +:+ ds) with (String "H" (String "R" (String ":" ds))).
    cbn -[int_of_str]. rewrite Hp. unfold ds.
    change (0 <? (if 0 + 1 <? 0 then -1 else 0 + 1 + 1)) with true.
    cbn -[int_of_str str_of_int]. by rewrite int_of_str_of_int.
  - change ("IR" +:+ ":" +:+ ds) with (String "I" (String "R" (String ":" ds))).
    cbn -[int_of_str]. rewrite Hp. unfold ds.
    change (0 <? (if 0 + 1 <? 0 then -1 else 0 + 1 + 1)) with true.
    cbn -[int_of_str str_of_int]. by rewrite int_of_str_of_int.
Qed.

Lemma hook_loop_congr (pre post : json_object) (k1 k2 : string) v ret :
  hook_entry k1 = hook_entry k2 →
  register_object_hook_loop (pre ++ (k1, v) :: post) ret
  = register_object_hook_loop (pre ++ (k2, v) :: post) ret.
Proof.
  intros Hk. revert ret.
  induction pre as [|[k' v'] pre IH]; intros ret; cbn [app].
  - by rewrite !hook_loop_cons, Hk.
  - rewrite !hook_loop_cons. destruct (hook_entry k') as [[r|]|e]; eauto.
Qed.

Lemma hook_loop_snoc (data : json_object) (k : string) r v ret :
  hook_entry k = Ok (Some r) →
  register_object_hook_loop (data ++ [(k, v)]) ret
  = (λ d, <[r := v]> d) <$> register_object_hook_loop data ret.
Proof.
  intros Hk. revert ret.
  induction data as [|[k' v'] data IH]; intros ret; cbn [app].
  - by rewrite hook_loop_cons, Hk.
  - rewrite !hook_loop_cons. destruct (hook_entry k') as [[r'|]|e]; eauto.
Qed.

(** A one-entry object, in terms of the entry. *)
Lemma from_json_singleton (k : string) v :
  from_json [(k, v)]
  = match hook_entry k with
    | Ok (Some r) => Ok (<[r := v]> ∅)
    | Ok None => Ok ∅
    | Raise e => Raise e
    end.
Proof.
  rewrite from_json_loop. change (dict_of_pairs [(k, v)]) with [(k, v)].
  rewrite hook_loop_cons. by destruct (hook_entry k) as [[r|]|e].
Qed.

Lemma hook_loop_is_ok (data : json_object) ret :
  is_ok (register_object_hook_loop data ret)
  = forallb (λ kv, is_ok (hook_entry kv.1)) data.
Proof.
  revert ret. induction data as [|[k v] data IH]; intros ret; [done|].
  rewrite hook_loop_cons. cbn [forallb fst].
  destruct (hook_entry k) as [[r|]|e]; cbn; auto.
Qed.

Lemma hook_loop_provenance (data : json_object) ret c r v :
  register_object_hook_loop data ret = Ok c → c !! r = Some v →
  ret !! r = Some v
  ∨ ∃ k, (k, v) ∈ data ∧ hook_entry k = Ok (Some r).
Proof.
  revert ret. induction data as [|[k v'] data IH]; intros ret.
  - intros [= ->] Hr. by left.
  - rewrite hook_loop_cons.
    destruct (hook_entry k) as [[r'|]|e] eqn:Hk; [| |done].
    + intros Hloop Hr. destruct (IH _ Hloop Hr) as [Hret|(k0 & Hin & Hk0)].
      * destruct (decide (r' = r)) as [->|Hne].
        -- rewrite lookup_insert_eq in Hret. injection Hret as ->.
           right. exists k. split; [left | done].
        -- rewrite lookup_insert_ne in Hret by done. by left.
      * right. exists k0. split; [by right | done].
    + intros Hloop Hr. destruct (IH _ Hloop Hr) as [Hret|(k0 & Hin & Hk0)].
      * by left.
      * right. exists k0. split; [by right | done].
Qed.

Lemma split_key_no_separator (k : string) :
  find "(" k ≤ 0 → find ":" k ≤ 0 → hook_entry k = Raise ValueError.
Proof.
  intros Hp Hc. unfold hook_entry, split_key.
  destruct (Z.ltb_spec 0 (find "(" k)); [lia|].
  destruct (Z.ltb_spec 0 (find ":" k)); [lia|]. reflexivity.
Qed.

Lemma dict_set_split (d1 d2 : json_object) (k x : string) v w :
  x ≠ k →
  dict_set (d1 ++ (k, v) :: d2) x w
  = (split_set x w (d1, d2)).1 ++ (k, v) :: (split_set x w (d1, d2)).2.
Proof.
  intros Hx. unfold split_set. cbn [fst snd].
  induction d1 as [|[k0 v0] d1 IH].
  - rewrite bool_decide_eq_false_2 by (cbn; apply not_elem_of_nil).
    cbn [app fst snd dict_set]. by rewrite bool_decide_eq_false_2 by congruence.
  - cbn [app dict_set fmap list_fmap fst].
    destruct (decide (k0 = x)) as [->|Hk0].
    + rewrite (bool_decide_eq_true_2 (x = x)) by done.
      by rewrite (bool_decide_eq_true_2 (x ∈ x :: d1.*1)) by left.
    + rewrite (bool_decide_eq_false_2 (k0 = x)) by done. rewrite IH.
      destruct (decide (x ∈ d1.*1)) as [Hin|Hin].
      * rewrite (bool_decide_eq_true_2 (x ∈ d1.*1)) by done.
        by rewrite (bool_decide_eq_true_2 (x ∈ k0 :: d1.*1)) by by right.
      * rewrite (bool_decide_eq_false_2 (x ∈ d1.*1)) by done.
        rewrite (bool_decide_eq_false_2 (x ∈ k0 :: d1.*1)); [done|].
        intros [?|?]%elem_of_cons; congruence.
Qed.

Lemma foldl_dict_step_split (post d1 d2 : json_object) (k : string) v :
  k ∉ post.*1 →
  foldl dict_step (d1 ++ (k, v) :: d2) post
  = (foldl (λ p kv, split_set kv.1 kv.2 p) (d1, d2) post).1
    ++ (k, v) :: (foldl (λ p kv, split_set kv.1 kv.2 p) (d1, d2) post).2.
Proof.
  revert d1 d2. induction post as [|[x w] post IH]; intros d1 d2 Hk; [done|].
  cbn [fmap list_fmap fst] in Hk. apply not_elem_of_cons in Hk as [Hne Hk].
  cbn [foldl]. unfold dict_step at 2. cbn [fst snd].
  rewrite dict_set_split by congruence.
  destruct (split_set x w (d1, d2)) as [e1 e2]. by apply IH.
Qed.

(** Around a member whose key occurs nowhere else, the dictionary does not
    depend on that key. *)
Lemma dict_of_pairs_around (pre post : json_object) (k : string) v :
  k ∉ pre.*1 → k ∉ post.*1 →
  dict_of_pairs (pre ++ (k, v) :: post)
  = (foldl (λ p kv, split_set kv.1 kv.2 p) (dict_of_pairs pre, []) post).1
    ++ (k, v)
    :: (foldl (λ p kv, split_set kv.1 kv.2 p) (dict_of_pairs pre, []) post).2.
Proof.
  intros Hpre Hpost. rewrite dict_of_pairs_foldl, foldl_app. cbn [foldl].
  unfold dict_step at 2. cbn [fst snd]. fold (dict_of_pairs pre).
  rewrite dict_set_fresh by by rewrite dict_of_pairs_keys.
  by apply foldl_dict_step_split.
Qed.

Lemma dict_of_pairs_snoc (data : json_object) (k : string) v :
  k ∉ data.*1 → dict_of_pairs (data ++ [(k, v)]) = dict_of_pairs data ++ [(k, v)].
Proof.
  intros Hk. rewrite dict_of_pairs_foldl, foldl_app. cbn [foldl].
  unfold dict_step at 1. cbn [fst snd]. fold (dict_of_pairs data).
  apply dict_set_fresh. by rewrite dict_of_pairs_keys.
Qed.

Lemma forallb_dict_of_pairs (p : string → bool) (l : json_object) :
  forallb (λ kv, p kv.1) (dict_of_pairs l) = forallb (λ kv, p kv.1) l.
Proof.
  apply eq_true_iff_eq. rewrite !forallb_forall. split.
  - intros H [k v] Hin. apply list_elem_of_In in Hin.
    assert (Hk : k ∈ (dict_of_pairs l).*1).
    { apply dict_of_pairs_keys. by apply (list_elem_of_fmap_2 fst) in Hin. }
    apply list_elem_of_fmap in Hk as ([k' v'] & -> & Hin').
    apply (H (k', v')). by apply list_elem_of_In.
  - intros H [k v] Hin. apply list_elem_of_In in Hin.
    assert (Hk : k ∈ l.*1).
    { apply dict_of_pairs_keys. by apply (list_elem_of_fmap_2 fst) in Hin. }
    apply list_elem_of_fmap in Hk as ([k' v'] & -> & Hin').
    apply (H (k', v')). by apply list_elem_of_In.
Qed.

End JsonMore.

(** X18: the serialization has one member per entry of the cache, and no two
    members have the same key. *)
Theorem json_keys_distinct (c : RegisterCache) :
  NoDup (json c).*1 ∧ length (json c) = size c.
Proof.
  unfold json, json_of_items. split.
  - rewrite <- list_fmap_compose.
    change (fst ∘ (λ kv : Register * pyval, (Register_str kv.1, kv.2)))
      with (Register_str ∘ (fst : Register * pyval → Register)).
    rewrite list_fmap_compose.
    apply (@NoDup_fmap_2 _ _ Register_str Register_str_Inj).
    apply NoDup_fst_map_to_list.
  - by rewrite length_fmap, length_map_to_list.
Qed.

(** X19: on deserialization the legacy key [HR:13] stands for the same
    register as the canonical key [HR(13)]: in an object where neither key
    occurs anywhere else, replacing one by the other does not change the
    outcome. *)
Theorem from_json_colon_key_same (pre post : json_object) (r : Register)
    (v : pyval) :
  colon_key r ∉ (pre ++ post).*1 → Register_str r ∉ (pre ++ post).*1 →
  from_json (pre ++ (colon_key r, v) :: post)
  = from_json (pre ++ (Register_str r, v) :: post).
Proof.
  rewrite !fmap_app, !not_elem_of_app. intros [Hc1 Hc2] [Hr1 Hr2].
  rewrite !from_json_loop, !dict_of_pairs_around by done.
  apply hook_loop_congr.
  by rewrite hook_entry_colon_key, hook_entry_Register_str.
Qed.

Lemma from_json_colon_key_same_witness :
  from_json ([("IR(1)", PInt 1)] ++ (colon_key (HR 5), PInt 2)
             :: [("IR(1)", PInt 3)])
  = from_json ([("IR(1)", PInt 1)] ++ (Register_str (HR 5), PInt 2)
               :: [("IR(1)", PInt 3)]).
Proof.
  apply (from_json_colon_key_same [("IR(1)", PInt 1)] [("IR(1)", PInt 3)]
           (HR 5) (PInt 2));
    apply (bool_decide_unpack _); vm_compute; exact I.
Defined.

(** X20: a member appended to the object under a key of a register, in
    either form, that no earlier member uses is stored last: the cache is
    the one deserialized without it with the value stored under the
    register, so it overrides what an earlier member stored for the same
    register under the other form of the key. *)
Theorem from_json_last_entry_wins (data : json_object) (r : Register)
    (v : pyval) (k : string) :
  k = Register_str r ∨ k = colon_key r → k ∉ data.*1 →
  from_json (data ++ [(k, v)]) = (λ d, <[r := v]> d) <$> from_json data.
Proof.
  intros Hk Hfresh. rewrite !from_json_loop, dict_of_pairs_snoc by done.
  apply hook_loop_snoc. destruct Hk as [-> | ->].
  - apply hook_entry_Register_str.
  - apply hook_entry_colon_key.
Qed.

Lemma from_json_last_entry_wins_witness :
  from_json ([("HR:5", PInt 1); ("IR(2)", PInt 7)] ++ [("HR(5)", PInt 2)])
  = (λ d, <[HR 5 := PInt 2]> d)
      <$> from_json [("HR:5", PInt 1); ("IR(2)", PInt 7)].
Proof.
  apply (from_json_last_entry_wins [("HR:5", PInt 1); ("IR(2)", PInt 7)]
           (HR 5) (PInt 2) "HR(5)"); [by left|].
  apply (bool_decide_unpack _). vm_compute. exact I.
Defined.

(** X21: a key with neither a parenthesis nor a colon after its first
    character makes the whole parse fail; when it is the first entry the
    error is the [ValueError] raised for an invalid register type. *)
Theorem from_json_no_separator (pre post : json_object) (k : string)
    (v : pyval) :
  find "(" k ≤ 0 → find ":" k ≤ 0 →
  from_json ((k, v) :: post) = Raise ValueError
  ∧ ∃ e, from_json (pre ++ (k, v) :: post) = Raise e ∧ MalformedKey e.
Proof.
  intros Hp Hc. pose proof (split_key_no_separator k Hp Hc) as Hk.
  split; [by apply from_json_raise_first|].
  eapply from_json_raise_key; [|exact Hk].
  rewrite fmap_app. apply elem_of_app. right. left.
Qed.

Lemma from_json_no_separator_witness :
  from_json (("(5)", PInt 1) :: [("HR(3)", PInt 3)]) = Raise ValueError
  ∧ ∃ e, from_json ([("IR(1)", PInt 1)] ++ ("(5)", PInt 1) :: [("HR(3)", PInt 3)])
         = Raise e ∧ MalformedKey e.
Proof.
  apply (from_json_no_separator [("IR(1)", PInt 1)] [("HR(3)", PInt 3)]
           "(5)" (PInt 1)); apply Z.leb_le; reflexivity.
Defined.

(** X22: a parse succeeds exactly when every entry would parse on its own:
    whether an entry is accepted does not depend on the other entries. *)
Theorem from_json_ok_entrywise (data : json_object) :
  is_ok (from_json data) = forallb (λ kv, is_ok (from_json [kv])) data.
Proof.
  rewrite from_json_loop, hook_loop_is_ok.
  rewrite (forallb_dict_of_pairs (λ k, is_ok (hook_entry k))).
  induction data as [|[k v] data IH]; [done|].
  cbn [forallb fst]. rewrite IH. f_equal.
  rewrite from_json_singleton. by destruct (hook_entry k) as [[r|]|e].
Qed.

(** X23: every entry of a deserialized cache comes from a member of the
    object with the same value whose key, parsed on its own, gives that
    register. *)
Theorem from_json_provenance (data : json_object) (c : RegisterCache)
    (r : Register) (v : pyval) :
  from_json data = Ok c → c !! r = Some v →
  ∃ k, (k, v) ∈ data ∧ from_json [(k, v)] = Ok (<[r := v]> ∅).
Proof.
  rewrite from_json_loop. intros Hloop Hr.
  destruct (hook_loop_provenance _ ∅ c r v Hloop Hr) as [He|(k & Hin & Hk)].
  - by rewrite lookup_empty in He.
  - exists k. split; [by apply elem_of_dict_of_pairs|].
    by rewrite from_json_singleton, Hk.
Qed.

Lemma from_json_provenance_witness :
  ∃ k, (k, PInt 3) ∈ [("HR(abc)", PInt 1); ("HR:5", PInt 2); ("HR:5", PInt 3)]
       ∧ from_json [(k, PInt 3)] = Ok (<[HR 5 := PInt 3]> ∅).
Proof.
  apply (from_json_provenance
           [("HR(abc)", PInt 1); ("HR:5", PInt 2); ("HR:5", PInt 3)]
           (<[HR 5 := PInt 3]> ∅) (HR 5) (PInt 3)); reflexivity.
Defined.

(* ===================================================================== *)
(** * Further properties of the register tables *)
(* ===================================================================== *)

Section TablesMore.

Lemma RegisterBank_call_positional (tbl : list RegisterBank) (n : Z) :
  (∀ i e, tbl !! i = Some e → value e = Z.of_nat i) →
  (0 ≤ n < Z.of_nat (length tbl) →
   ∃ e, RegisterBank_call tbl n = Ok e ∧ tbl !! Z.to_nat n = Some e
        ∧ value e = n)
  ∧ (n < 0 ∨ Z.of_nat (length tbl) ≤ n →
     RegisterBank_call tbl n = Raise ValueError).
Proof.
  intros Hpos. unfold RegisterBank_call. split.
  - intros Hn.
    destruct (lookup_lt_is_Some_2 tbl (Z.to_nat n)) as [e He]; [lia|].
    assert (Hv : value e = n) by (rewrite (Hpos _ _ He); lia).
    destruct (list_find (λ e, value e = n) tbl) as [[i e']|] eqn:Hf.
    + apply list_find_Some in Hf as (Hi & Hv' & _).
      assert (i = Z.to_nat n) as -> by (apply Hpos in Hi; lia).
      rewrite He in Hi. injection Hi as <-. eauto.
    + apply list_find_None in Hf. rewrite Forall_forall in Hf.
      exfalso. apply (Hf e); [|done]. by eapply list_elem_of_lookup_2.
  - intros Hn.
    destruct (list_find (λ e, value e = n) tbl) as [[i e']|] eqn:Hf; [|done].
    apply list_find_Some in Hf as (Hi & Hv' & _).
    pose proof (lookup_lt_Some _ _ _ Hi). apply Hpos in Hi. lia.
Qed.

End TablesMore.

(** X24: calling a register table with a value, as in [HoldingRegister(13)],
    returns the member defined at that index for the 121 holding and the 182
    input registers, and raises [ValueError] for any other value. *)
Theorem RegisterBank_call_by_index (tbl : list RegisterBank) (n : Z) :
  tbl = HoldingRegister ∨ tbl = InputRegister →
  length HoldingRegister = 121%nat ∧ length InputRegister = 182%nat
  ∧ (0 ≤ n < Z.of_nat (length tbl) →
     ∃ e, RegisterBank_call tbl n = Ok e ∧ tbl !! Z.to_nat n = Some e
          ∧ value e = n)
  ∧ (n < 0 ∨ Z.of_nat (length tbl) ≤ n →
     RegisterBank_call tbl n = Raise ValueError).
Proof.
  intros Htbl. split; [reflexivity|]. split; [reflexivity|].
  apply RegisterBank_call_positional. intros i e Hi.
  assert (HH : forallb (dword_check HoldingRegister)
                 (seq 0 (length HoldingRegister)) = true)
    by (vm_compute; reflexivity).
  assert (HI : forallb (dword_check InputRegister)
                 (seq 0 (length InputRegister)) = true)
    by (vm_compute; reflexivity).
  destruct Htbl as [-> | ->].
  - exact (proj1 (dword_check_all HoldingRegister HH i e Hi)).
  - exact (proj1 (dword_check_all InputRegister HI i e Hi)).
Qed.

Lemma RegisterBank_call_by_index_witness :
  ∃ e, RegisterBank_call HoldingRegister 13 = Ok e
       ∧ HoldingRegister !! Z.to_nat 13 = Some e ∧ value e = 13.
Proof.
  refine (proj1 (proj2 (proj2 (RegisterBank_call_by_index HoldingRegister 13
                                 (or_introl eq_refl)))) _).
  split; [lia | apply Z.ltb_lt; reflexivity].
Defined.

(** X25: within each register table no two members share a name and no two
    share an index, as the enumeration and its [unique] decorator require. *)
Theorem register_tables_unique :
  NoDup (name <$> HoldingRegister) ∧ NoDup (value <$> HoldingRegister)
  ∧ NoDup (name <$> InputRegister) ∧ NoDup (value <$> InputRegister).
Proof.
  repeat split; apply (bool_decide_unpack _); vm_compute; exact I.
Qed.
